(** * Session controller of the Geo Session Analyzer ([start.py])

    A shallow embedding of [GeoAnalysisApp]: the four-state session
    controller, the capture-and-send worker, the final-analysis worker with
    its delimiter parsing, and the marker plotting callback.

    Conventions.
    - Python [str] values are [string]s; every character stands for the code
      point of the same number (U+0000 to U+00FF).
    - [self.*] attributes and the widgets they own are fields of [App] and
      [Presenter]; methods are functions [App -> App].
    - A background thread is the list of the [action]s its body performs, in
      program order; [self.root.after(0, f)] enqueues a [callback] that the
      Tk main loop runs later.  [step] takes a thread as one event;
      [fine_step] follows the capture-and-send threads statement by
      statement, one statement being one step.
    - Library calls whose result the program cannot predict are inputs:
      the screen capture result, the reply of [send_message], and the two
      decoders [json.loads] and [float(str)].
    - Console [print]s are not modelled. *)

From Stdlib Require Import String Ascii List ZArith Lia Bool Arith DecimalString.
Import ListNotations.
Local Open Scope list_scope.
Local Open Scope string_scope.

(** ** Python string primitives *)

Module PyStr.

Definition nl : string := String (ascii_of_nat 10) EmptyString.

(** [str(n)] for a non-negative [int]. *)
Definition str (n : nat) : string := NilEmpty.string_of_uint (Nat.to_uint n).

(** [sub] occurs in [s] at index [n]. *)
Definition occurs_at (sub s : string) (n : nat) : Prop :=
  exists a b, s = a ++ sub ++ b /\ String.length a = n.

Definition absent (sub s : string) : Prop := forall n, ~ occurs_at sub s n.

(** [n] is the lowest index at which [sub] occurs in [s]. *)
Definition first_at (sub s : string) (n : nat) : Prop :=
  occurs_at sub s n /\ forall m, m < n -> ~ occurs_at sub s m.

Fixpoint find_from (sub s : string) : option nat :=
  if prefix sub s then Some 0
  else match s with
       | EmptyString => None
       | String _ s' => option_map S (find_from sub s')
       end.

(** [s.find(sub)]: the lowest index where [sub] is found, [-1] if none. *)
Definition find (s sub : string) : Z :=
  match find_from sub s with
  | Some n => Z.of_nat n
  | None => (-1)%Z
  end.

(** [len(s)] *)
Definition len (s : string) : Z := Z.of_nat (String.length s).

(** A slice bound as Python normalises it: a negative bound counts from the
    end, and the result is clamped to [0 .. len]. *)
Definition bound (n i : Z) : Z :=
  if (i <? 0)%Z then Z.max 0 (i + n) else Z.min i n.

(** [s[lo:hi]] *)
Definition slice (s : string) (lo hi : Z) : string :=
  let l := bound (len s) lo in
  let h := bound (len s) hi in
  substring (Z.to_nat l) (Z.to_nat (h - l)) s.

(** [c.isspace()] for a code point below 256. *)
Definition isspace (c : ascii) : bool :=
  let n := nat_of_ascii c in
  (((9 <=? n) && (n <=? 13)) || ((28 <=? n) && (n <=? 32))
   || (n =? 133) || (n =? 160))%nat.

Fixpoint lstrip (s : string) : string :=
  match s with
  | EmptyString => EmptyString
  | String c s' => if isspace c then lstrip s' else s
  end.

Fixpoint rstrip (s : string) : string :=
  match s with
  | EmptyString => EmptyString
  | String c s' =>
      match rstrip s' with
      | EmptyString => if isspace c then EmptyString else String c EmptyString
      | r => String c r
      end
  end.

(** [s.strip()] *)
Definition strip (s : string) : string := rstrip (lstrip s).

Fixpoint all_space (s : string) : bool :=
  match s with
  | EmptyString => true
  | String c s' => isspace c && all_space s'
  end.

Definition head_is_space (s : string) : bool :=
  match s with
  | EmptyString => false
  | String c _ => isspace c
  end.

Fixpoint last_is_space (s : string) : bool :=
  match s with
  | EmptyString => false
  | String c EmptyString => isspace c
  | String _ s' => last_is_space s'
  end.

End PyStr.

Import PyStr.

(** ** Python values and exceptions *)

(** A Python [float], kept symbolic: the controller never computes with a
    latitude or a longitude, it only hands them to the map widget. *)
Inductive pyfloat :=
| FloatOfInt (z : Z)            (* the float nearest to the int [z] *)
| FloatOfLiteral (s : string).  (* the float that a numeric literal denotes *)

(** The objects [json.loads] builds. *)
#[local] Unset Elimination Schemes.
Inductive pyval :=
| PyNone
| PyBool (b : bool)
| PyInt (z : Z)
| PyFloat (f : pyfloat)
| PyStr (s : string)
| PyList (l : list pyval)
| PyDict (d : list (string * pyval)).
#[local] Set Elimination Schemes.

Inductive pyexn :=
| ValueError | TypeError | AttributeError | OverflowError | NameError.

Inductive result (A : Type) :=
| Ok (a : A)
| Raise (e : pyexn).
Arguments Ok {A} a.
Arguments Raise {A} e.

Definition bind {A B} (r : result A) (k : A -> result B) : result B :=
  match r with
  | Ok a => k a
  | Raise e => Raise e
  end.

Notation "x <- r ;; k" := (bind r (fun x => k))
  (at level 61, r at next level, right associativity).

(** What [json.loads] does: it returns the decoded object, or raises a
    [JSONDecodeError] (with its message), or raises another exception, with
    [str] of it: a plain [ValueError] on an integer of more digits than the
    interpreter converts, a [RecursionError] on nesting too deep. *)
Inductive loads_result :=
| Loaded (data : pyval)
| JSONDecodeError (json_err : string)
| LoadsRaises (e : string).

(** The smallest magnitude of an [int] that [float()] refuses: ints round to
    the nearest double, and from [2^1024 - 2^970] on they round out of range. *)
Definition float_overflow_bound : Z := (2 ^ 1024 - 2 ^ 970)%Z.

Fixpoint dict_lookup (key : string) (d : list (string * pyval)) : option pyval :=
  match d with
  | [] => None
  | (k, v) :: d' => if (k =? key)%string then Some v else dict_lookup key d'
  end.

(** [item.get(key)]: only a [dict] has the method; a missing key gives [None]. *)
Definition get (item : pyval) (key : string) : result pyval :=
  match item with
  | PyDict d =>
      match dict_lookup key d with
      | Some v => Ok v
      | None => Ok PyNone
      end
  | _ => Raise AttributeError
  end.

(** ** The model: session client, capturer, presenter *)

Inductive app_state := IDLE | RECORDING | PAUSED | ANALYZING.

Definition app_state_eqb (a b : app_state) : bool :=
  match a, b with
  | IDLE, IDLE | RECORDING, RECORDING | PAUSED, PAUSED
  | ANALYZING, ANALYZING => true
  | _, _ => false
  end.

(** A captured PIL image, identified by an opaque number. *)
Definition image := nat.

(** The identity of a [ChatSession] object. *)
Definition session_id := nat.

(** The identifier [root.after] returns. *)
Definition job_id := nat.

Inductive prompt := PROMPT_FOR_FRAME | PROMPT_FINAL_ANALYSIS.

(** One element of the list given to [send_message]. *)
Inductive part :=
| Prompt (p : prompt)
| Text (s : string)
| Image (img : image).

(** What [send_message] (followed by [.text]) does: return the reply text or
    raise; [e] is [str] of the exception. *)
Inductive send_result :=
| Reply (full_text : string)
| SendFails (e : string).

Definition FRAME_INTERVAL_MS : nat := 5000.
Definition monitor_to_capture : nat := 1.
Definition json_start_marker : string := "<<<JSON_START>>>".
Definition json_end_marker : string := "<<<JSON_END>>>".

Inductive target_tab := analysis | coords.

(** The closures handed to [self.root.after(0, ...)]. *)
Inductive callback :=
| update_frame_count_cb
| update_results_cb (text : string) (append : bool) (tab : target_tab)
| sending_notice_cb      (* reads [len(self.captured_frames)] when it runs *)
| delete_all_marker_cb
| plot_markers_cb (data : pyval)
| analysis_error_coords_cb (* reads the handler's [e] when it runs *)
| finalize_analysis_ui_cb.

Inductive thread := send_frame_thread | final_analysis_thread.

(** A marker of the map widget. *)
Record Marker := { lat : pyfloat; lon : pyfloat; text : string }.

(** A Tk button: [NORMAL] is [true], [DISABLED] is [false]. *)
Record Button := { enabled : bool; caption : string }.

(** The widgets the controller writes to. *)
Record Presenter := {
  status_label : string * string;        (* text, fg *)
  frame_count_label : string;
  analysis_text : string;                (* content of the Analysis tab *)
  coords_status_label : string;          (* label under the map *)
  markers : list Marker;                 (* in the order they were set *)
  map_position : pyfloat * pyfloat;
  map_zoom : nat;
  start_button : Button;
  pause_resume_button : Button;
  stop_button : Button;
  clear_button : Button;
  warnings : list (string * string)      (* [messagebox.showwarning] calls *)
}.

(** [self] together with the Tk event loop and the session client's log. *)
Record App := {
  chat_session : option session_id;
  captured_frames : list image;
  state : app_state;
  frame_sender_job_id : option job_id;
  frame_count : nat;
  ui : Presenter;
  after_queue : list callback;           (* [root.after(0, f)], oldest first *)
  timers : list job_id;                  (* armed [root.after(ms, f)] jobs *)
  next_job : job_id;
  next_session : session_id;
  sent : list (session_id * list part);  (* [send_message] calls so far *)
  threads : list thread                  (* started, not yet run *)
}.

Definition set_status_label (v : string * string) (p : Presenter) : Presenter :=
  {| status_label := v; frame_count_label := frame_count_label p;
     analysis_text := analysis_text p;
     coords_status_label := coords_status_label p; markers := markers p;
     map_position := map_position p; map_zoom := map_zoom p;
     start_button := start_button p;
     pause_resume_button := pause_resume_button p;
     stop_button := stop_button p; clear_button := clear_button p;
     warnings := warnings p |}.

Definition set_frame_count_label (v : string) (p : Presenter) : Presenter :=
  {| status_label := status_label p; frame_count_label := v;
     analysis_text := analysis_text p;
     coords_status_label := coords_status_label p; markers := markers p;
     map_position := map_position p; map_zoom := map_zoom p;
     start_button := start_button p;
     pause_resume_button := pause_resume_button p;
     stop_button := stop_button p; clear_button := clear_button p;
     warnings := warnings p |}.

Definition set_analysis_text (v : string) (p : Presenter) : Presenter :=
  {| status_label := status_label p;
     frame_count_label := frame_count_label p; analysis_text := v;
     coords_status_label := coords_status_label p; markers := markers p;
     map_position := map_position p; map_zoom := map_zoom p;
     start_button := start_button p;
     pause_resume_button := pause_resume_button p;
     stop_button := stop_button p; clear_button := clear_button p;
     warnings := warnings p |}.

Definition set_coords_status_label (v : string) (p : Presenter) : Presenter :=
  {| status_label := status_label p;
     frame_count_label := frame_count_label p;
     analysis_text := analysis_text p; coords_status_label := v;
     markers := markers p; map_position := map_position p;
     map_zoom := map_zoom p; start_button := start_button p;
     pause_resume_button := pause_resume_button p;
     stop_button := stop_button p; clear_button := clear_button p;
     warnings := warnings p |}.

Definition set_markers (v : list Marker) (p : Presenter) : Presenter :=
  {| status_label := status_label p;
     frame_count_label := frame_count_label p;
     analysis_text := analysis_text p;
     coords_status_label := coords_status_label p; markers := v;
     map_position := map_position p; map_zoom := map_zoom p;
     start_button := start_button p;
     pause_resume_button := pause_resume_button p;
     stop_button := stop_button p; clear_button := clear_button p;
     warnings := warnings p |}.

Definition set_map_position (v : pyfloat * pyfloat) (p : Presenter) : Presenter :=
  {| status_label := status_label p;
     frame_count_label := frame_count_label p;
     analysis_text := analysis_text p;
     coords_status_label := coords_status_label p; markers := markers p;
     map_position := v; map_zoom := map_zoom p;
     start_button := start_button p;
     pause_resume_button := pause_resume_button p;
     stop_button := stop_button p; clear_button := clear_button p;
     warnings := warnings p |}.

Definition set_map_zoom (v : nat) (p : Presenter) : Presenter :=
  {| status_label := status_label p;
     frame_count_label := frame_count_label p;
     analysis_text := analysis_text p;
     coords_status_label := coords_status_label p; markers := markers p;
     map_position := map_position p; map_zoom := v;
     start_button := start_button p;
     pause_resume_button := pause_resume_button p;
     stop_button := stop_button p; clear_button := clear_button p;
     warnings := warnings p |}.

Definition set_start_button (v : Button) (p : Presenter) : Presenter :=
  {| status_label := status_label p;
     frame_count_label := frame_count_label p;
     analysis_text := analysis_text p;
     coords_status_label := coords_status_label p; markers := markers p;
     map_position := map_position p; map_zoom := map_zoom p;
     start_button := v; pause_resume_button := pause_resume_button p;
     stop_button := stop_button p; clear_button := clear_button p;
     warnings := warnings p |}.

Definition set_pause_resume_button (v : Button) (p : Presenter) : Presenter :=
  {| status_label := status_label p;
     frame_count_label := frame_count_label p;
     analysis_text := analysis_text p;
     coords_status_label := coords_status_label p; markers := markers p;
     map_position := map_position p; map_zoom := map_zoom p;
     start_button := start_button p; pause_resume_button := v;
     stop_button := stop_button p; clear_button := clear_button p;
     warnings := warnings p |}.

Definition set_stop_button (v : Button) (p : Presenter) : Presenter :=
  {| status_label := status_label p;
     frame_count_label := frame_count_label p;
     analysis_text := analysis_text p;
     coords_status_label := coords_status_label p; markers := markers p;
     map_position := map_position p; map_zoom := map_zoom p;
     start_button := start_button p;
     pause_resume_button := pause_resume_button p; stop_button := v;
     clear_button := clear_button p; warnings := warnings p |}.

Definition set_clear_button (v : Button) (p : Presenter) : Presenter :=
  {| status_label := status_label p;
     frame_count_label := frame_count_label p;
     analysis_text := analysis_text p;
     coords_status_label := coords_status_label p; markers := markers p;
     map_position := map_position p; map_zoom := map_zoom p;
     start_button := start_button p;
     pause_resume_button := pause_resume_button p;
     stop_button := stop_button p; clear_button := v;
     warnings := warnings p |}.

Definition set_warnings (v : list (string * string)) (p : Presenter) : Presenter :=
  {| status_label := status_label p;
     frame_count_label := frame_count_label p;
     analysis_text := analysis_text p;
     coords_status_label := coords_status_label p; markers := markers p;
     map_position := map_position p; map_zoom := map_zoom p;
     start_button := start_button p;
     pause_resume_button := pause_resume_button p;
     stop_button := stop_button p; clear_button := clear_button p;
     warnings := v |}.

Definition set_chat_session (v : option session_id) (a : App) : App :=
  {| chat_session := v; captured_frames := captured_frames a;
     state := state a; frame_sender_job_id := frame_sender_job_id a;
     frame_count := frame_count a; ui := ui a; after_queue := after_queue a;
     timers := timers a; next_job := next_job a;
     next_session := next_session a; sent := sent a; threads := threads a |}.

Definition set_captured_frames (v : list image) (a : App) : App :=
  {| chat_session := chat_session a; captured_frames := v; state := state a;
     frame_sender_job_id := frame_sender_job_id a;
     frame_count := frame_count a; ui := ui a; after_queue := after_queue a;
     timers := timers a; next_job := next_job a;
     next_session := next_session a; sent := sent a; threads := threads a |}.

Definition set_state (v : app_state) (a : App) : App :=
  {| chat_session := chat_session a; captured_frames := captured_frames a;
     state := v; frame_sender_job_id := frame_sender_job_id a;
     frame_count := frame_count a; ui := ui a; after_queue := after_queue a;
     timers := timers a; next_job := next_job a;
     next_session := next_session a; sent := sent a; threads := threads a |}.

Definition set_frame_sender_job_id (v : option job_id) (a : App) : App :=
  {| chat_session := chat_session a; captured_frames := captured_frames a;
     state := state a; frame_sender_job_id := v;
     frame_count := frame_count a; ui := ui a; after_queue := after_queue a;
     timers := timers a; next_job := next_job a;
     next_session := next_session a; sent := sent a; threads := threads a |}.

Definition set_frame_count (v : nat) (a : App) : App :=
  {| chat_session := chat_session a; captured_frames := captured_frames a;
     state := state a; frame_sender_job_id := frame_sender_job_id a;
     frame_count := v; ui := ui a; after_queue := after_queue a;
     timers := timers a; next_job := next_job a;
     next_session := next_session a; sent := sent a; threads := threads a |}.

Definition set_ui (v : Presenter) (a : App) : App :=
  {| chat_session := chat_session a; captured_frames := captured_frames a;
     state := state a; frame_sender_job_id := frame_sender_job_id a;
     frame_count := frame_count a; ui := v; after_queue := after_queue a;
     timers := timers a; next_job := next_job a;
     next_session := next_session a; sent := sent a; threads := threads a |}.

Definition set_after_queue (v : list callback) (a : App) : App :=
  {| chat_session := chat_session a; captured_frames := captured_frames a;
     state := state a; frame_sender_job_id := frame_sender_job_id a;
     frame_count := frame_count a; ui := ui a; after_queue := v;
     timers := timers a; next_job := next_job a;
     next_session := next_session a; sent := sent a; threads := threads a |}.

Definition set_timers (v : list job_id) (a : App) : App :=
  {| chat_session := chat_session a; captured_frames := captured_frames a;
     state := state a; frame_sender_job_id := frame_sender_job_id a;
     frame_count := frame_count a; ui := ui a; after_queue := after_queue a;
     timers := v; next_job := next_job a; next_session := next_session a;
     sent := sent a; threads := threads a |}.

Definition set_next_job (v : job_id) (a : App) : App :=
  {| chat_session := chat_session a; captured_frames := captured_frames a;
     state := state a; frame_sender_job_id := frame_sender_job_id a;
     frame_count := frame_count a; ui := ui a; after_queue := after_queue a;
     timers := timers a; next_job := v; next_session := next_session a;
     sent := sent a; threads := threads a |}.

Definition set_next_session (v : session_id) (a : App) : App :=
  {| chat_session := chat_session a; captured_frames := captured_frames a;
     state := state a; frame_sender_job_id := frame_sender_job_id a;
     frame_count := frame_count a; ui := ui a; after_queue := after_queue a;
     timers := timers a; next_job := next_job a; next_session := v;
     sent := sent a; threads := threads a |}.

Definition set_sent (v : list (session_id * list part)) (a : App) : App :=
  {| chat_session := chat_session a; captured_frames := captured_frames a;
     state := state a; frame_sender_job_id := frame_sender_job_id a;
     frame_count := frame_count a; ui := ui a; after_queue := after_queue a;
     timers := timers a; next_job := next_job a;
     next_session := next_session a; sent := v; threads := threads a |}.

Definition set_threads (v : list thread) (a : App) : App :=
  {| chat_session := chat_session a; captured_frames := captured_frames a;
     state := state a; frame_sender_job_id := frame_sender_job_id a;
     frame_count := frame_count a; ui := ui a; after_queue := after_queue a;
     timers := timers a; next_job := next_job a;
     next_session := next_session a; sent := sent a; threads := v |}.

(** ** Presenter methods *)

Definition with_ui (f : Presenter -> Presenter) (a : App) : App :=
  set_ui (f (ui a)) a.

Definition config_state (st : bool) (b : Button) : Button :=
  {| enabled := st; caption := caption b |}.

Definition config_text (t : string) (b : Button) : Button :=
  {| enabled := enabled b; caption := t |}.

Definition config (st : bool) (t : string) (b : Button) : Button :=
  {| enabled := st; caption := t |}.

Definition showwarning (title message : string) (p : Presenter) : Presenter :=
  set_warnings (warnings p ++ [(title, message)])%list p.

Definition delete_all_marker (p : Presenter) : Presenter := set_markers [] p.

Definition set_marker (la lo : pyfloat) (t : string) (p : Presenter) : Presenter :=
  set_markers (markers p ++ [{| lat := la; lon := lo; text := t |}])%list p.

Definition set_position (la lo : pyfloat) (p : Presenter) : Presenter :=
  set_map_position (la, lo) p.

Definition set_zoom (z : nat) (p : Presenter) : Presenter := set_map_zoom z p.

Definition update_status (text color : string) (a : App) : App :=
  if (text =? "")%string then a
  else with_ui (set_status_label ("Status: " ++ text, color)) a.

Definition update_frame_count (a : App) : App :=
  with_ui (set_frame_count_label ("Frames Sent: " ++ str (frame_count a))) a.

Definition update_results (text : string) (append : bool) (tab : target_tab)
    (a : App) : App :=
  match tab with
  | analysis =>
      if append
      then with_ui (fun p => set_analysis_text (analysis_text p ++ text ++ nl) p) a
      else with_ui (set_analysis_text (text ++ nl)) a
  | coords => with_ui (set_coords_status_label text) a
  end.

Definition truthy {A} (o : option A) : bool :=
  match o with
  | Some _ => true
  | None => false
  end.

Definition update_button_states (a : App) : App :=
  let p := ui a in
  let p :=
    match state a with
    | IDLE =>
        let p := set_start_button (config_state true (start_button p)) p in
        let p := set_pause_resume_button (config false "Pause" (pause_resume_button p)) p in
        let p := set_stop_button (config_state false (stop_button p)) p in
        set_clear_button (config_state (truthy (chat_session a)) (clear_button p)) p
    | RECORDING =>
        let p := set_start_button (config_state false (start_button p)) p in
        let p := set_pause_resume_button (config true "Pause" (pause_resume_button p)) p in
        let p := set_stop_button (config_state true (stop_button p)) p in
        set_clear_button (config_state false (clear_button p)) p
    | PAUSED =>
        let p := set_start_button (config_state false (start_button p)) p in
        let p := set_pause_resume_button (config true "Resume" (pause_resume_button p)) p in
        let p := set_stop_button (config_state true (stop_button p)) p in
        set_clear_button (config_state false (clear_button p)) p
    | ANALYZING =>
        let p := set_start_button (config_state false (start_button p)) p in
        let p := set_pause_resume_button (config_state false (pause_resume_button p)) p in
        let p := set_stop_button (config false "Analyzing..." (stop_button p)) p in
        set_clear_button (config_state false (clear_button p)) p
    end in
  set_ui p a.

(** ** Controller methods (run on the Tk main loop) *)

(** [self.root.after(FRAME_INTERVAL_MS, self.send_frame_task)] *)
Definition after_interval (a : App) : job_id * App :=
  let j := next_job a in
  (j, set_next_job (S j) (set_timers (timers a ++ [j])%list a)).

Definition after_cancel (j : job_id) (a : App) : App :=
  set_timers (List.remove Nat.eq_dec j (timers a)) a.

Definition schedule_next_frame (a : App) : App :=
  match state a with
  | RECORDING =>
      let '(j, a) := after_interval a in
      set_frame_sender_job_id (Some j) a
  | _ => a
  end.

(** [self.model.start_chat(history=[])]: a fresh session object. *)
Definition start_chat (a : App) : session_id * App :=
  let s := next_session a in
  (s, set_next_session (S s) a).

Definition start_session (a : App) : App :=
  let a :=
    match chat_session a with
    | None =>
        let a := update_results "Starting new session..." false analysis a in
        let '(s, a) := start_chat a in
        let a := set_chat_session (Some s) a in
        let a := set_captured_frames [] a in
        let a := set_frame_count 0 a in
        update_frame_count a
    | Some _ => update_results "Resuming session..." false analysis a
    end in
  let a := set_state RECORDING a in
  let a := update_status "RECORDING" "red" a in
  let a := update_button_states a in
  schedule_next_frame a.

Definition cancel_frame_sender (a : App) : App :=
  match frame_sender_job_id a with
  | Some j => set_frame_sender_job_id None (after_cancel j a)
  | None => a
  end.

Definition toggle_pause_resume (a : App) : App :=
  let a :=
    match state a with
    | RECORDING =>
        let a := set_state PAUSED a in
        let a := update_status "PAUSED" "orange" a in
        cancel_frame_sender a
    | PAUSED =>
        let a := set_state RECORDING a in
        let a := update_status "RECORDING" "red" a in
        schedule_next_frame a
    | _ => a
    end in
  update_button_states a.

(** [threading.Thread(target=..., daemon=True).start()] *)
Definition start_thread (t : thread) (a : App) : App :=
  set_threads (threads a ++ [t])%list a.

Definition send_frame_task (a : App) : App :=
  match state a with
  | RECORDING =>
      let a := start_thread send_frame_thread a in
      schedule_next_frame a
  | _ => a
  end.

Definition state_in (s : app_state) (l : list app_state) : bool :=
  existsb (app_state_eqb s) l.

Definition stop_and_analyze (a : App) : App :=
  if negb (state_in (state a) [RECORDING; PAUSED]) then a
  else
    let a := set_state ANALYZING a in
    let a := update_status "ANALYZING" "purple" a in
    let a := with_ui (fun p => set_stop_button (config_text "Analyzing..." (stop_button p)) p) a in
    let a := update_button_states a in
    let a := cancel_frame_sender a in
    start_thread final_analysis_thread a.

Definition _finalize_analysis_ui (a : App) : App :=
  let a := set_state IDLE a in
  let a := update_status "IDLE" "blue" a in
  let a := with_ui (fun p => set_stop_button (config_text "Stop & Analyze" (stop_button p)) p) a in
  update_button_states a.

Definition clear_history (a : App) : App :=
  if negb (state_in (state a) [IDLE; ANALYZING])
  then with_ui (showwarning "Clear History"
                  "Stop the current session before clearing history.") a
  else
    let a := cancel_frame_sender a in
    let a := set_chat_session None a in
    let a := set_captured_frames [] a in
    let a := set_frame_count 0 a in
    let a := update_frame_count a in
    let a := set_state IDLE a in
    let a := update_status "IDLE" "blue" a in
    let a := update_results "History cleared. Ready for a new session." false analysis a in
    let a := with_ui delete_all_marker a in
    let a := update_results "Coordinates will be plotted here after analysis." false coords a in
    let a := with_ui (set_position (FloatOfInt 0) (FloatOfInt 0)) a in
    let a := with_ui (set_zoom 1) a in
    update_button_states a.

(** The application once [__init__] has returned. *)
Definition init : App :=
  update_button_states
    {| chat_session := None;
       captured_frames := [];
       state := IDLE;
       frame_sender_job_id := None;
       frame_count := 0;
       ui := {| status_label := ("Status: IDLE", "blue");
                frame_count_label := "Frames Sent: 0";
                analysis_text :=
                  "Instructions:" ++ nl
                  ++ "1. Click 'Start Session' to begin." ++ nl
                  ++ "2. The app will capture screen frames periodically." ++ nl
                  ++ "3. Use 'Pause'/'Resume' as needed." ++ nl
                  ++ "4. Click 'Stop & Analyze' for the final location guess." ++ nl
                  ++ "5. 'Clear History' starts a completely new location analysis." ++ nl;
                coords_status_label :=
                  "Coordinates will be plotted here after analysis.";
                markers := [];
                map_position := (FloatOfInt 0, FloatOfInt 0);
                map_zoom := 1;
                start_button := {| enabled := true; caption := "Start Session" |};
                pause_resume_button := {| enabled := false; caption := "Pause" |};
                stop_button := {| enabled := false; caption := "Stop & Analyze" |};
                clear_button := {| enabled := true; caption := "Clear History" |};
                warnings := [] |};
       after_queue := [];
       timers := [];
       next_job := 0;
       next_session := 0;
       sent := [];
       threads := [] |}.

(** ** Plotting, callbacks and background workers *)

(** The exceptions the marker loop handles: [except (ValueError, TypeError,
    AttributeError)]. *)
Definition handled (e : pyexn) : bool :=
  match e with
  | ValueError | TypeError | AttributeError => true
  | OverflowError | NameError => false
  end.

(** What a background thread does, one statement at a time. *)
Inductive action :=
| capture_screen_to_image (monitor_number : nat)
| send_message (session : session_id) (parts : list part)
| append_frame (img : image)     (* [self.captured_frames.append(img)] *)
| incr_frame_count               (* [self.frame_count += 1] *)
| after0 (cb : callback).        (* [self.root.after(0, cb)] *)

(** The loop variables of [plot_markers_on_map]. *)
Record plot_vars := {
  plotted_count : nat;
  first_marker : bool;
  app : App
}.

Section Decoders.

(** [json.loads] on a string. *)
Variable json_loads : string -> loads_result.

(** Whether [float()] accepts a string as a numeric literal. *)
Variable float_literal : string -> bool.

(** [float(x)] *)
Definition float (x : pyval) : result pyfloat :=
  match x with
  | PyNone => Raise TypeError
  | PyBool b => Ok (FloatOfInt (if b then 1 else 0))
  | PyInt z =>
      if (Z.abs z <? float_overflow_bound)%Z then Ok (FloatOfInt z)
      else Raise OverflowError
  | PyFloat f => Ok f
  | PyStr s => if float_literal s then Ok (FloatOfLiteral s) else Raise ValueError
  | PyList _ => Raise TypeError
  | PyDict _ => Raise TypeError
  end.

(** The two coercions at the head of the loop body. *)
Definition item_lat_lon (item : pyval) : result (pyfloat * pyfloat) :=
  v <- get item "latitude" ;;
  la <- float v ;;
  w <- get item "longitude" ;;
  lo <- float w ;;
  Ok (la, lo).

(** [for i, item in enumerate(data)], from index [i] on.  An exception the
    [except] clause does not name leaves the loop. *)
Fixpoint plot_loop (i : nat) (data : list pyval) (vars : plot_vars)
    : plot_vars * option pyexn :=
  match data with
  | [] => (vars, None)
  | item :: rest =>
      match item_lat_lon item with
      | Ok (la, lo) =>
          let rank := i + 1 in
          let a := with_ui (set_marker la lo (str rank)) (app vars) in
          let n := plotted_count vars + 1 in
          if first_marker vars then
            let a := with_ui (set_position la lo) a in
            let a := with_ui (set_zoom 10) a in
            plot_loop (S i) rest
              {| plotted_count := n; first_marker := false; app := a |}
          else
            plot_loop (S i) rest
              {| plotted_count := n; first_marker := false; app := a |}
      | Raise marker_err =>
          if handled marker_err then plot_loop (S i) rest vars
          else (vars, Some marker_err)
      end
  end.

(** [plot_markers_on_map(data)]; the flag [markers_plotted] it sets is never
    read and is left out. *)
Definition plot_markers_on_map (data : pyval) (a : App) : App * option pyexn :=
  let a := with_ui delete_all_marker a in
  let vars := {| plotted_count := 0; first_marker := true; app := a |} in
  match data with
  | PyList ((_ :: _) as l) =>
      match plot_loop 0 l vars with
      | (vars, Some e) => (app vars, Some e)
      | (vars, None) =>
          if (0 <? plotted_count vars)%nat then
            (update_results
               ("Plotted " ++ str (plotted_count vars)
                ++ " potential locations (ranked).")
               false coords (app vars), None)
          else
            (update_results "Parsed JSON, but no valid coordinates to plot."
               false coords (app vars), None)
      end
  | _ =>
      (update_results "Parsed JSON coordinate data is empty or not a list."
         false coords a, None)
  end.

(** Running one [after(0, ...)] callback.  An exception that escapes a
    callback is reported by Tk on the console; what the callback did before
    stays done. *)
Definition run_callback (cb : callback) (a : App) : App :=
  match cb with
  | update_frame_count_cb => update_frame_count a
  | update_results_cb text append tab => update_results text append tab a
  | sending_notice_cb =>
      update_results
        (nl ++ "Sending " ++ str (List.length (captured_frames a))
         ++ " captured frames and requesting final analysis...")
        true analysis a
  | delete_all_marker_cb => with_ui delete_all_marker a
  | plot_markers_cb data => fst (plot_markers_on_map data a)
  | analysis_error_coords_cb =>
      (* [e] is unbound once the [except] block has been left: NameError *)
      a
  | finalize_analysis_ui_cb => _finalize_analysis_ui a
  end.

Definition run_callbacks (q : list callback) (a : App) : App :=
  fold_left (fun a cb => run_callback cb a) q a.

(** The main loop runs the oldest pending callback. *)
Definition mainloop_step (a : App) : App :=
  match after_queue a with
  | [] => a
  | cb :: q => run_callback cb (set_after_queue q a)
  end.

(** The main loop runs every pending callback, oldest first. *)
Definition drain (a : App) : App :=
  run_callbacks (after_queue a) (set_after_queue [] a).

(** [_send_frame_worker]: [cap] is what [capture_screen_to_image] returns,
    [r] what [send_message] does. *)
Definition _send_frame_worker (cap : option image) (r : send_result)
    (a : App) : list action :=
  if negb (app_state_eqb (state a) RECORDING) || negb (truthy (chat_session a))
  then []
  else
    match chat_session a with
    | Some s =>
        capture_screen_to_image monitor_to_capture ::
        match cap with
        | Some img =>
            send_message s [Prompt PROMPT_FOR_FRAME; Image img] ::
            match r with
            | Reply _ =>
                [append_frame img; incr_frame_count;
                 after0 update_frame_count_cb]
            | SendFails _ => []
            end
        | None => []
        end
    | None => []
    end.

(** The handler [except Exception as e] of [_final_analysis_worker]. *)
Definition on_exception (e : string) : list action :=
  [after0 (update_results_cb (nl ++ "--- ANALYSIS ERROR ---" ++ nl ++ e)
             true analysis);
   after0 analysis_error_coords_cb].

(** Lines 391-462 of [_final_analysis_worker]: the reply is searched for
    the two markers and the enclosed block is decoded.  An exception of
    [json.loads] that is no [JSONDecodeError] leaves these lines for the
    handler [except Exception as e]; the update of the Analysis tab at
    line 462 is then not reached. *)
Definition parse_reply (full_text : string) : list action :=
  let start_index := find full_text json_start_marker in
  let end_index := find full_text json_end_marker in
  if (negb (start_index =? -1) && negb (end_index =? -1)
      && (start_index <? end_index))%Z
  then
    let analysis_part := strip (slice full_text 0 start_index) in
    let json_string :=
      strip (slice full_text (start_index + len json_start_marker) end_index) in
    match json_loads json_string with
    | Loaded coordinate_data =>
        [after0 (plot_markers_cb coordinate_data);
         after0 (update_results_cb analysis_part false analysis)]
    | JSONDecodeError json_err =>
        [after0 (update_results_cb
                   ("Error parsing JSON block: " ++ json_err ++ nl
                    ++ "Raw JSON:" ++ nl ++ json_string)
                   false coords);
         after0 (update_results_cb analysis_part false analysis)]
    | LoadsRaises e => on_exception e
    end
  else
    [after0 (update_results_cb
               ("Warning: JSON markers not found." ++ nl
                ++ "Full response in Analysis tab.")
               false coords);
     after0 (update_results_cb full_text false analysis)].

(** [_final_analysis_worker]: [r] is what the one [send_message] does. *)
Definition _final_analysis_worker (r : send_result) (a : App) : list action :=
  match chat_session a with
  | None =>
      [after0 (update_results_cb "Error: No active session to analyze."
                 false analysis);
       after0 (update_results_cb "Error: No active session to analyze."
                 false coords);
       after0 finalize_analysis_ui_cb]
  | Some s =>
      match captured_frames a with
      | [] =>
          [after0 (update_results_cb
                     "Error: No frames were captured during the session."
                     false analysis);
           after0 (update_results_cb
                     "Error: No frames were captured during the session."
                     false coords);
           after0 finalize_analysis_ui_cb]
      | frames =>
          let intro_text :=
            "Here are " ++ str (List.length frames)
            ++ " frames captured sequentially during exploration of a location. Please analyze them together with the following request:" in
          let message_parts :=
            ([Text intro_text] ++ map Image frames
             ++ [Prompt PROMPT_FINAL_ANALYSIS])%list in
          ([after0 sending_notice_cb;
            after0 (update_results_cb "Waiting for analysis..." false coords);
            after0 delete_all_marker_cb;
            send_message s message_parts]
           ++ match r with
              | Reply full_text => parse_reply full_text
              | SendFails e => on_exception e
              end
           ++ [after0 finalize_analysis_ui_cb])%list
      end
  end.

(** The effect of one statement of a thread on the shared objects. *)
Definition perform (act : action) (a : App) : App :=
  match act with
  | capture_screen_to_image _ => a
  | send_message s parts => set_sent (sent a ++ [(s, parts)])%list a
  | append_frame img => set_captured_frames (captured_frames a ++ [img])%list a
  | incr_frame_count => set_frame_count (frame_count a + 1) a
  | after0 cb => set_after_queue (after_queue a ++ [cb])%list a
  end.

(** A thread that runs from start to end without the main loop running. *)
Definition run_thread (body : list action) (a : App) : App :=
  fold_left (fun a act => perform act a) body a.

Definition send_frame_cycle (cap : option image) (r : send_result) (a : App) : App :=
  run_thread (_send_frame_worker cap r a) a.

(** The final-analysis thread followed by the callbacks it posted. *)
Definition final_analysis (r : send_result) (a : App) : App :=
  drain (run_thread (_final_analysis_worker r a) a).

(** ** Executions *)

Fixpoint take_thread (t : thread) (ts : list thread) : option (list thread) :=
  match ts with
  | [] => None
  | t' :: ts' =>
      match t, t' with
      | send_frame_thread, send_frame_thread
      | final_analysis_thread, final_analysis_thread => Some ts'
      | _, _ => option_map (cons t') (take_thread t ts')
      end
  end.

(** What can happen next: a command of the user, a timer that fires, a
    started thread that runs, the main loop taking a posted callback. *)
Inductive event :=
| start
| pause_resume
| stop
| clear
| timer_fires (j : job_id)
| send_thread_runs (cap : option image) (r : send_result)
| final_thread_runs (r : send_result)
| callback_runs.

(** One event.  A thread is taken as a whole here: [send_thread_runs] is
    a capture-and-send thread that nothing interrupts between its test of
    the state (line 309) and its last statement.  The executions in which
    the main loop and other threads run between two statements of such a
    thread are those of [fine_step] below. *)
Definition step (ev : event) (a : App) : App :=
  match ev with
  | start => start_session a
  | pause_resume => toggle_pause_resume a
  | stop => stop_and_analyze a
  | clear => clear_history a
  | timer_fires j =>
      if existsb (Nat.eqb j) (timers a)
      then send_frame_task (after_cancel j a)
      else a
  | send_thread_runs cap r =>
      match take_thread send_frame_thread (threads a) with
      | Some ts => send_frame_cycle cap r (set_threads ts a)
      | None => a
      end
  | final_thread_runs r =>
      match take_thread final_analysis_thread (threads a) with
      | Some ts =>
          let a := set_threads ts a in
          run_thread (_final_analysis_worker r a) a
      | None => a
      end
  | callback_runs => mainloop_step a
  end.

Definition run (evs : list event) (a : App) : App :=
  fold_left (fun a ev => step ev a) evs a.

(** ** Executions, statement by statement *)

(** A capture-and-send thread is started at line 299 and holds no lock: it
    tests the state once when it is entered (line 309), waits in
    [send_message] (line 321), and then appends (line 325) and counts
    (line 326), while the main loop goes on.  A [machine] is the application
    together with what each capture-and-send thread under way has still to
    run; a thread that has ended stays in the list with nothing to run. *)
Record machine := {
  shared : App;
  in_flight : list (list action)
}.

Definition at_rest (a : App) : machine := {| shared := a; in_flight := [] |}.

(** The list [l] with [x] at index [i]. *)
Fixpoint put {A : Type} (i : nat) (x : A) (l : list A) : list A :=
  match l, i with
  | [], _ => []
  | _ :: l', 0 => x :: l'
  | y :: l', S i' => y :: put i' x l'
  end.

(** One statement of a capture-and-send thread, at the moment the thread
    reaches it.  [self.chat_session.send_message] is called on the handle
    the attribute holds at that moment; on [None] the call raises
    [AttributeError], and the handler at line 330 ends the thread. *)
Definition land (act : action) (a : App) : option App :=
  match act with
  | send_message _ parts =>
      match chat_session a with
      | Some s => Some (perform (send_message s parts) a)
      | None => None
      end
  | _ => Some (perform act a)
  end.

(** What can happen next when threads are followed statement by statement:
    an event of [step], a started capture-and-send thread that tests the
    state and goes on or returns, or the next statement of the [i]-th thread
    under way.  The final-analysis thread stays an event of [step]: it
    writes neither the state, the handle, the frame sequence nor the
    counter, it sends and posts callbacks. *)
Inductive moment :=
| happens (ev : event)
| worker_enters (cap : option image) (r : send_result)
| worker_advances (i : nat).

Definition fine_step (mo : moment) (m : machine) : machine :=
  match mo with
  | happens ev => {| shared := step ev (shared m); in_flight := in_flight m |}
  | worker_enters cap r =>
      match take_thread send_frame_thread (threads (shared m)) with
      | Some ts =>
          let a := set_threads ts (shared m) in
          {| shared := a;
             in_flight := (in_flight m ++ [_send_frame_worker cap r a])%list |}
      | None => m
      end
  | worker_advances i =>
      match nth_error (in_flight m) i with
      | Some (act :: rest) =>
          match land act (shared m) with
          | Some a => {| shared := a; in_flight := put i rest (in_flight m) |}
          | None => {| shared := shared m; in_flight := put i [] (in_flight m) |}
          end
      | _ => m
      end
  end.

Definition fine_run (ms : list moment) (m : machine) : machine :=
  fold_left (fun m mo => fine_step mo m) ms m.

End Decoders.

(** ** Vocabulary of the properties *)

(** A statement of a thread that writes [self.captured_frames],
    [self.frame_count] or [self.state] itself, instead of posting a callback. *)
Definition writes_shared (act : action) : bool :=
  match act with
  | append_frame _ | incr_frame_count => true
  | capture_screen_to_image _ | send_message _ _ | after0 _ => false
  end.

Definition is_send (act : action) : bool :=
  match act with
  | send_message _ _ => true
  | _ => false
  end.

(** The frame counter mirrors the frame sequence. *)
Definition counter_matches (a : App) : Prop :=
  frame_count a = List.length (captured_frames a).








(** A JSON number and the float it is read as. *)
Inductive number : pyval -> pyfloat -> Prop :=
| number_int (z : Z) :
    (Z.abs z < float_overflow_bound)%Z -> number (PyInt z) (FloatOfInt z)
| number_float (f : pyfloat) : number (PyFloat f) f.

(** A record with a numeric latitude and a numeric longitude. *)
Definition valid_record (item : pyval) (c : pyfloat * pyfloat) : Prop :=
  exists d vlat vlon,
    item = PyDict d
    /\ dict_lookup "latitude" d = Some vlat /\ number vlat (fst c)
    /\ dict_lookup "longitude" d = Some vlon /\ number vlon (snd c).

(** Candidates numbered in input order, the first one being number [i + 1]. *)
Fixpoint ranked_from (i : nat) (cs : list (pyfloat * pyfloat)) : list Marker :=
  match cs with
  | [] => []
  | (la, lo) :: cs' =>
      {| lat := la; lon := lo; text := str (i + 1) |} :: ranked_from (S i) cs'
  end.

(** What the session owns: the handle, the frames, the counter, and the log
    of the session client. *)
Definition session_part (a : App) :=
  (chat_session a, captured_frames a, frame_count a, sent a).

(** The markers a record list calls for: one for every record whose
    coordinates can be read, labelled with its 1-based position in the list. *)
Fixpoint expected_markers (float_literal : string -> bool) (i : nat)
    (data : list pyval) : list Marker :=
  match data with
  | [] => []
  | item :: rest =>
      match item_lat_lon float_literal item with
      | Ok (la, lo) =>
          {| lat := la; lon := lo; text := str (i + 1) |}
          :: expected_markers float_literal (S i) rest
      | Raise _ => expected_markers float_literal (S i) rest
      end
  end.

(** Every record that cannot be read fails with an exception the loop
    handles. *)
Definition all_handled (float_literal : string -> bool) (data : list pyval)
    : Prop :=
  Forall (fun item => forall e,
            item_lat_lon float_literal item = Raise e -> handled e = true)
         data.

(** The warning [clear_history] shows when it refuses. *)
Definition clear_warning : string * string :=
  ("Clear History", "Stop the current session before clearing history.").

(** [clear] refused: a warning is shown, the session stays as it was. *)
Definition clear_rejected (a : App) : Prop :=
  let a' := clear_history a in
  state a' = state a
  /\ chat_session a' = chat_session a
  /\ captured_frames a' = captured_frames a
  /\ frame_count a' = frame_count a
  /\ warnings (ui a') = (warnings (ui a) ++ [clear_warning])%list.

(** [clear] carried out: the session is gone and nothing is shown as a warning. *)
Definition clear_performed (a : App) : Prop :=
  let a' := clear_history a in
  state a' = IDLE
  /\ chat_session a' = None
  /\ captured_frames a' = []
  /\ frame_count a' = 0
  /\ markers (ui a') = []
  /\ warnings (ui a') = warnings (ui a).

(** The callbacks a thread posts, and the turns it sends, in order. *)
Fixpoint posted (body : list action) : list callback :=
  match body with
  | [] => []
  | after0 cb :: body' => cb :: posted body'
  | _ :: body' => posted body'
  end.

Fixpoint sends (body : list action) : list (session_id * list part) :=
  match body with
  | [] => []
  | send_message s parts :: body' => (s, parts) :: sends body'
  | _ :: body' => sends body'
  end.

(** A thread that posts and sends but writes no shared attribute itself. *)
Definition posts_only (body : list action) : Prop :=
  Forall (fun act => writes_shared act = false) body.

(** The application at the moment the main loop reaches the callbacks the
    final-analysis thread posted: what was queued before them has run. *)
Definition reached (json_loads : string -> loads_result)
    (float_literal : string -> bool) (r : send_result) (a : App) : App :=
  run_callbacks float_literal (after_queue a)
    (set_after_queue []
       (set_sent
          (sent a ++ sends (_final_analysis_worker json_loads r a))%list a)).

(** ** Sample replies *)

Module Sample.

Definition q : string := String (ascii_of_nat 34) EmptyString.

Definition entry (key value : string) : string := q ++ key ++ q ++ ": " ++ value.

Definition record (la lo : string) : string :=
  "{" ++ entry "latitude" la ++ ", " ++ entry "longitude" lo ++ "}".

Fixpoint zeros (n : nat) : string :=
  match n with
  | 0 => ""
  | S n' => "0" ++ zeros n'
  end.

(** Two well-formed records. *)
Definition two_records : string :=
  "[" ++ record "48.8584" "2.2945" ++ ", " ++ record "51.5074" "-0.1278" ++ "]".

(** The first latitude is a string that is no number. *)
Definition one_bad_record : string :=
  "[" ++ record (q ++ "north" ++ q) "2.2945" ++ ", "
  ++ record "51.5074" "-0.1278" ++ "]".

(** The first latitude is the integer [10 ** 309]. *)
Definition huge_latitude : string :=
  "[" ++ record ("1" ++ zeros 309) "2.2945" ++ ", "
  ++ record "51.5074" "-0.1278" ++ "]".

(** A block cut short. *)
Definition truncated : string := "[" ++ record "48.8584" "2.2945" ++ ", {".

(** The message of the [JSONDecodeError] on [truncated]. *)
Definition cut_short : string :=
  "Expecting property name enclosed in double quotes: "
  ++ "line 1 column 47 (char 46)".

(** The latitude is the integer [10 ** 4300], of 4301 digits: one more
    than [int] converts from a string. *)
Definition long_integer : string :=
  "[" ++ record ("1" ++ zeros 4300) "2.2945" ++ "]".

(** [str] of the [ValueError] that [int] raises on 4301 digits. *)
Definition digits_limit : string :=
  "Exceeds the limit (4300 digits) for integer string conversion: "
  ++ "value has 4301 digits; use sys.set_int_max_str_digits() "
  ++ "to increase the limit".

Definition paris : pyfloat * pyfloat :=
  (FloatOfLiteral "48.8584", FloatOfLiteral "2.2945").

Definition london : pyfloat * pyfloat :=
  (FloatOfLiteral "51.5074", FloatOfLiteral "-0.1278").

Definition dict (la lo : pyval) : pyval :=
  PyDict [("latitude", la); ("longitude", lo)].

Definition place (c : pyfloat * pyfloat) : pyval :=
  dict (PyFloat (fst c)) (PyFloat (snd c)).

(** [json.loads] on the sample blocks; any other string is answered as
    one in which no JSON value starts. *)
Definition json_loads (s : string) : loads_result :=
  if (s =? two_records)%string then Loaded (PyList [place paris; place london])
  else if (s =? one_bad_record)%string then
    Loaded (PyList [dict (PyStr "north") (PyFloat (snd paris)); place london])
  else if (s =? huge_latitude)%string then
    Loaded (PyList [dict (PyInt (10 ^ 309)) (PyFloat (snd paris)); place london])
  else if (s =? long_integer)%string then LoadsRaises digits_limit
  else if (s =? truncated)%string then JSONDecodeError cut_short
  else JSONDecodeError "Expecting value: line 1 column 1 (char 0)".

(** [float(str)] on the strings of the samples: none of them is a number. *)
Definition float_literal (s : string) : bool := false.

Definition free_text : string := "Most likely Paris, France. Confidence: High.".

Definition reply_with (block : string) : string :=
  free_text ++ nl ++ json_start_marker ++ nl ++ block ++ nl ++ json_end_marker.

(** A reply that lacks the end marker. *)
Definition reply_without_end : string :=
  free_text ++ nl ++ json_start_marker ++ nl ++ two_records.

Definition run := run json_loads float_literal.

(** One frame sent, recording going on. *)
Definition recording : App :=
  run [start; timer_fires 0; send_thread_runs (Some 7) (Reply "A street sign.")]
      init.

(** The same session after [stop]: the final analysis is in flight. *)
Definition analyzing : App := run [stop] recording.

(** A session that was stopped before any frame was sent. *)
Definition stopped_early : App := run [start; stop] init.

(** The final analysis of the stopped session, for a reply with [block]. *)
Definition analysis (block : string) : App :=
  final_analysis json_loads float_literal (Reply (reply_with block)) analyzing.

End Sample.

(** ** More samples *)

Module MoreSamples.

(** [json.loads] as in [Sample], and on the empty list. *)
Definition json_loads (s : string) : loads_result :=
  if (s =? "[]")%string then Loaded (PyList []) else Sample.json_loads s.

(** A record whose latitude is a string that is no number, then a valid one. *)
Definition bad_then_good : list pyval :=
  [Sample.dict (PyStr "north") (PyFloat (snd Sample.paris));
   Sample.place Sample.london].

(** A record whose latitude is the integer [10 ** 309]. *)
Definition huge : pyval :=
  Sample.dict (PyInt (10 ^ 309)) (PyFloat (snd Sample.paris)).

(** A session in which one frame was sent and its refresh has run. *)
Definition one_frame_shown : list event :=
  [start; timer_fires 0; send_thread_runs (Some 7) (Reply "A street sign.");
   callback_runs].

(** That session after [stop], with nothing waiting in the main loop. *)
Definition stopped_quiet : App :=
  run Sample.json_loads Sample.float_literal (one_frame_shown ++ [stop])%list
    init.



(** A thread that was entered while recording and whose send returns
    after the session was stopped and the history cleared. *)
Definition late_reply : list moment :=
  [happens start; happens (timer_fires 0);
   worker_enters (Some 8) (Reply "A street sign.");
   worker_advances 0; worker_advances 0;
   happens stop; happens clear;
   worker_advances 0; worker_advances 0; worker_advances 0].

End MoreSamples.

(** ** Button clicks *)

(** Tk runs the command of a button only while the button is enabled. *)
Definition click (button : Presenter -> Button) (command : App -> App)
    (a : App) : App :=
  if enabled (button (ui a)) then command a else a.

(** One event of an execution in which the four commands are issued by
    clicking their buttons ([__init__] wires each button to its method). *)
Definition ui_step (json_loads : string -> loads_result)
    (float_literal : string -> bool) (ev : event) (a : App) : App :=
  match ev with
  | start => click start_button start_session a
  | pause_resume => click pause_resume_button toggle_pause_resume a
  | stop => click stop_button stop_and_analyze a
  | clear => click clear_button clear_history a
  | _ => step json_loads float_literal ev a
  end.

Definition ui_run (json_loads : string -> loads_result)
    (float_literal : string -> bool) (evs : list event) (a : App) : App :=
  fold_left (fun a ev => ui_step json_loads float_literal ev a) evs a.

(** ** Vocabulary of the invariants *)

(** All the attributes that neither the map nor a text pane shows. *)
Definition control_part (a : App) :=
  (chat_session a, captured_frames a, state a, frame_sender_job_id a,
   frame_count a, after_queue a, timers a, next_job a, next_session a,
   sent a, threads a,
   (start_button (ui a), pause_resume_button (ui a), stop_button (ui a),
    clear_button (ui a), warnings (ui a), status_label (ui a))).

(** Everything but the map and the label under it. *)
Definition beyond_map (a : App) :=
  (control_part a, frame_count_label (ui a), analysis_text (ui a)).

Fixpoint count_final (ts : list thread) : nat :=
  match ts with
  | [] => 0
  | final_analysis_thread :: ts' => S (count_final ts')
  | send_frame_thread :: ts' => count_final ts'
  end.

Fixpoint count_finalize (q : list callback) : nat :=
  match q with
  | [] => 0
  | finalize_analysis_ui_cb :: q' => S (count_finalize q')
  | _ :: q' => count_finalize q'
  end.

(** A session exists outside IDLE. *)
Definition session_outside_idle (a : App) : Prop :=
  state a <> IDLE -> chat_session a <> None.


(** Every frame of the sequence went to the session client on its own. *)
Definition frames_were_sent (a : App) : Prop :=
  forall img, In img (captured_frames a) ->
    exists s, In (s, [Prompt PROMPT_FOR_FRAME; Image img]) (sent a).

(** The session handle in use and the sessions of the log were all created
    before the next one will be. *)
Definition sessions_are_known (a : App) : Prop :=
  (forall s, chat_session a = Some s -> s < next_session a)
  /\ (forall s parts, In (s, parts) (sent a) -> s < next_session a).

(** Which buttons can be pressed in which state. *)
Definition buttons_follow_state (a : App) : Prop :=
  enabled (start_button (ui a)) = app_state_eqb (state a) IDLE
  /\ enabled (pause_resume_button (ui a))
     = state_in (state a) [RECORDING; PAUSED]
  /\ enabled (stop_button (ui a)) = state_in (state a) [RECORDING; PAUSED]
  /\ enabled (clear_button (ui a))
     = app_state_eqb (state a) IDLE && truthy (chat_session a).

(** What the pause and stop buttons read. *)
Definition captions_follow_state (a : App) : Prop :=
  caption (stop_button (ui a))
  = (if app_state_eqb (state a) ANALYZING then "Analyzing..."
     else "Stop & Analyze")
  /\ match state a with
     | PAUSED => caption (pause_resume_button (ui a)) = "Resume"
     | IDLE | RECORDING => caption (pause_resume_button (ui a)) = "Pause"
     | ANALYZING => True
     end.

(** One timer is armed while recording, and none otherwise. *)
Definition timer_follows_state (a : App) : Prop :=
  match state a with
  | RECORDING => exists j, timers a = [j] /\ frame_sender_job_id a = Some j
  | _ => timers a = [] /\ frame_sender_job_id a = None
  end.

(** In ANALYZING exactly one of two things is pending: the final-analysis
    thread, or the callback that returns to IDLE.  In the other states
    neither is. *)
Definition analysis_follows_state (a : App) : Prop :=
  match state a with
  | ANALYZING =>
      (count_final (threads a) = 1 /\ count_finalize (after_queue a) = 0)
      \/ (count_final (threads a) = 0 /\ count_finalize (after_queue a) = 1)
  | _ => count_final (threads a) = 0 /\ count_finalize (after_queue a) = 0
  end.

Definition ui_invariant (a : App) : Prop :=
  buttons_follow_state a /\ captions_follow_state a
  /\ timer_follows_state a /\ analysis_follows_state a.

(** * Properties *)

(** ** Strings *)

Module PyStrFacts.

Lemma app_assoc (a b c : string) : (a ++ b) ++ c = a ++ b ++ c.
Proof. induction a as [|x a IH]; simpl; [reflexivity | now rewrite IH]. Qed.

Lemma app_empty_r (a : string) : a ++ "" = a.
Proof. induction a as [|x a IH]; simpl; [reflexivity | now rewrite IH]. Qed.

Lemma length_app (a b : string) :
  String.length (a ++ b) = String.length a + String.length b.
Proof. induction a as [|x a IH]; simpl; [reflexivity | now rewrite IH]. Qed.

Lemma prefix_iff (sub s : string) :
  prefix sub s = true <-> exists t, s = sub ++ t.
Proof.
  revert s; induction sub as [|x sub IH]; intros s; simpl.
  - split; [intros _; exists s; reflexivity | intros _; destruct s; reflexivity].
  - destruct s as [|y s]; simpl.
    + split; [discriminate | intros [t Ht]; discriminate].
    + destruct (ascii_dec x y) as [->|Hne].
      * rewrite IH. split; intros [t Ht]; exists t; congruence.
      * split; [discriminate | intros [t Ht]; congruence].
Qed.

Lemma occurs_at_0 (sub s : string) :
  occurs_at sub s 0 <-> prefix sub s = true.
Proof.
  rewrite prefix_iff. split.
  - intros (a & b & -> & Ha). destruct a; [exists b; reflexivity | discriminate].
  - intros [t ->]. exists "", t. auto.
Qed.

Lemma occurs_at_S (sub : string) (c : ascii) (s : string) (n : nat) :
  occurs_at sub (String c s) (S n) <-> occurs_at sub s n.
Proof.
  split.
  - intros (a & b & E & Ha). destruct a as [|x a]; [discriminate|].
    simpl in E, Ha. exists a, b. split; congruence.
  - intros (a & b & -> & Ha). exists (String c a), b. simpl. auto.
Qed.

Lemma occurs_at_app (sub a b : string) :
  occurs_at sub (a ++ sub ++ b) (String.length a).
Proof. exists a, b. auto. Qed.

Lemma occurs_at_bound (sub s : string) (n : nat) :
  occurs_at sub s n -> n + String.length sub <= String.length s.
Proof. intros (a & b & -> & <-). rewrite !length_app. lia. Qed.

Lemma find_from_first (sub s : string) (n : nat) :
  find_from sub s = Some n -> first_at sub s n.
Proof.
  revert n; induction s as [|c s IH]; intros n; cbn [find_from].
  - destruct (prefix sub "") eqn:P; [|intros [=]].
    intros [= <-]. split; [now apply occurs_at_0 | intros m Hm; lia].
  - destruct (prefix sub (String c s)) eqn:P.
    + intros [= <-]. split; [now apply occurs_at_0 | intros m Hm; lia].
    + destruct (find_from sub s) as [k|]; [|intros [=]].
      intros [= <-]. destruct (IH k eq_refl) as [Hk Hmin]. split.
      * now apply occurs_at_S.
      * intros [|m] Hm H.
        -- apply occurs_at_0 in H. congruence.
        -- apply occurs_at_S in H. apply (Hmin m); [lia | assumption].
Qed.

Lemma find_from_absent (sub s : string) :
  find_from sub s = None -> absent sub s.
Proof.
  induction s as [|c s IH]; cbn [find_from].
  - destruct (prefix sub "") eqn:P; [intros [=]|].
    intros _ n (a & b & E & _).
    destruct a; [|discriminate E]. destruct sub; [discriminate P | discriminate E].
  - destruct (prefix sub (String c s)) eqn:P; [intros [=]|].
    destruct (find_from sub s) as [k|]; [intros [=]|].
    intros _ [|n] H.
    + apply occurs_at_0 in H. congruence.
    + apply occurs_at_S in H. now apply (IH eq_refl n).
Qed.

Lemma first_at_unique (sub s : string) (n m : nat) :
  first_at sub s n -> first_at sub s m -> n = m.
Proof.
  intros [Hn Hn'] [Hm Hm'].
  destruct (Nat.lt_trichotomy n m) as [H|[H|H]]; [|assumption|].
  - now destruct (Hm' n H).
  - now destruct (Hn' m H).
Qed.

(** [find] returns the lowest index of an occurrence... *)
Lemma find_first (s sub : string) (n : nat) :
  find s sub = Z.of_nat n <-> first_at sub s n.
Proof.
  unfold find. destruct (find_from sub s) as [k|] eqn:F.
  - apply find_from_first in F. split.
    + intros H. apply Nat2Z.inj in H. now subst.
    + intros H. f_equal. eapply first_at_unique; eassumption.
  - apply find_from_absent in F. split; [lia|].
    intros [H _]. now destruct (F n).
Qed.

(** ... and [-1] exactly when there is none. *)
Lemma find_absent (s sub : string) :
  find s sub = (-1)%Z <-> absent sub s.
Proof.
  unfold find. destruct (find_from sub s) as [k|] eqn:F.
  - apply find_from_first in F. split; [lia|].
    intros H. destruct F as [F _]. now destruct (H k).
  - apply find_from_absent in F. tauto.
Qed.

Lemma find_cases (s sub : string) :
  (find s sub = (-1)%Z /\ absent sub s)
  \/ exists n, find s sub = Z.of_nat n /\ first_at sub s n.
Proof.
  unfold find. destruct (find_from sub s) as [k|] eqn:F.
  - right. exists k. split; [reflexivity | now apply find_from_first].
  - left. split; [reflexivity | now apply find_from_absent].
Qed.

Lemma substring_all (a b : string) :
  substring 0 (String.length a) (a ++ b) = a.
Proof.
  induction a as [|x a IH]; simpl.
  - destruct b; reflexivity.
  - now rewrite IH.
Qed.

Lemma substring_skip (a b : string) (n : nat) :
  substring (String.length a) n (a ++ b) = substring 0 n b.
Proof. induction a as [|x a IH]; simpl; [reflexivity | apply IH]. Qed.

Lemma bound_inside (n i : Z) : (0 <= i <= n)%Z -> bound n i = i.
Proof.
  intros H. unfold bound.
  destruct (Z.ltb_spec i 0); [lia | apply Z.min_l; lia].
Qed.

(** [(a + b)[:len(a)]] *)
Lemma slice_prefix (a b : string) : slice (a ++ b) 0 (len a) = a.
Proof.
  unfold slice, len. rewrite length_app.
  rewrite !bound_inside by lia.
  rewrite Z.sub_0_r, Nat2Z.id. apply substring_all.
Qed.

(** [(a + m + b)[len(a):len(a)+len(m)]] *)
Lemma slice_middle (a m b : string) :
  slice (a ++ m ++ b) (len a) (len a + len m) = m.
Proof.
  unfold slice, len. rewrite !length_app.
  rewrite !bound_inside by lia.
  replace (Z.of_nat (String.length a) + Z.of_nat (String.length m)
           - Z.of_nat (String.length a))%Z
    with (Z.of_nat (String.length m)) by lia.
  rewrite !Nat2Z.id, substring_skip. apply substring_all.
Qed.

Lemma lstrip_head (s : string) : head_is_space (lstrip s) = false.
Proof.
  induction s as [|c s IH]; simpl; [reflexivity|].
  destruct (isspace c) eqn:E; [assumption | simpl; assumption].
Qed.

Lemma rstrip_last (s : string) : last_is_space (rstrip s) = false.
Proof.
  induction s as [|c s IH]; simpl; [reflexivity|].
  destruct (rstrip s) as [|d r] eqn:R.
  - destruct (isspace c) eqn:E; simpl; [reflexivity | assumption].
  - simpl in *. assumption.
Qed.

Lemma rstrip_head (s : string) :
  head_is_space s = false -> head_is_space (rstrip s) = false.
Proof.
  destruct s as [|c s]; simpl; [reflexivity|].
  intros E. destruct (rstrip s); simpl; [rewrite E; simpl; exact E | assumption].
Qed.

Lemma lstrip_split (s : string) :
  exists w, s = w ++ lstrip s /\ all_space w = true.
Proof.
  induction s as [|c s (w & E & W)]; simpl.
  - exists "". auto.
  - destruct (isspace c) eqn:C.
    + exists (String c w). simpl. rewrite C, W. split; [congruence | reflexivity].
    + exists "". auto.
Qed.

Lemma rstrip_split (s : string) :
  exists w, s = rstrip s ++ w /\ all_space w = true.
Proof.
  induction s as [|c s (w & E & W)]; simpl.
  - exists "". auto.
  - destruct (rstrip s) as [|d r] eqn:R.
    + destruct (isspace c) eqn:C.
      * exists (String c w). simpl in *. rewrite C, W. split; [congruence | reflexivity].
      * exists w. simpl in *. split; congruence.
    + exists w. simpl in *. split; congruence.
Qed.

(** [strip] removes a run of whitespace at each end, and nothing else. *)
Lemma strip_spec (s : string) :
  (exists l r, s = l ++ strip s ++ r /\ all_space l = true /\ all_space r = true)
  /\ head_is_space (strip s) = false
  /\ last_is_space (strip s) = false.
Proof.
  unfold strip. split; [|split].
  - destruct (lstrip_split s) as (l & El & Wl).
    destruct (rstrip_split (lstrip s)) as (r & Er & Wr).
    exists l, r. split; [|auto]. now rewrite <- Er.
  - apply rstrip_head, lstrip_head.
  - apply rstrip_last.
Qed.

End PyStrFacts.

(** ** The presenter leaves the session alone *)

Section ControllerFacts.

Variable json_loads : string -> loads_result.
Variable float_literal : string -> bool.

Lemma with_ui_session (f : Presenter -> Presenter) (a : App) :
  session_part (with_ui f a) = session_part a.
Proof. reflexivity. Qed.

Lemma with_ui_state (f : Presenter -> Presenter) (a : App) :
  state (with_ui f a) = state a.
Proof. reflexivity. Qed.

Lemma update_results_session text append tab (a : App) :
  session_part (update_results text append tab a) = session_part a.
Proof. destruct tab, append; reflexivity. Qed.

Lemma update_results_state text append tab (a : App) :
  state (update_results text append tab a) = state a.
Proof. destruct tab, append; reflexivity. Qed.

Lemma update_status_session text color (a : App) :
  session_part (update_status text color a) = session_part a.
Proof. unfold update_status. destruct (text =? "")%string; reflexivity. Qed.

Lemma update_status_state text color (a : App) :
  state (update_status text color a) = state a.
Proof. unfold update_status. destruct (text =? "")%string; reflexivity. Qed.

Lemma update_button_states_session (a : App) :
  session_part (update_button_states a) = session_part a.
Proof. reflexivity. Qed.

Lemma update_button_states_state (a : App) :
  state (update_button_states a) = state a.
Proof. reflexivity. Qed.

Lemma finalize_session (a : App) :
  session_part (_finalize_analysis_ui a) = session_part a.
Proof. reflexivity. Qed.

Lemma finalize_state (a : App) : state (_finalize_analysis_ui a) = IDLE.
Proof. reflexivity. Qed.

Lemma plot_loop_session (data : list pyval) :
  forall i vars,
    session_part (app (fst (plot_loop float_literal i data vars)))
    = session_part (app vars)
    /\ state (app (fst (plot_loop float_literal i data vars))) = state (app vars).
Proof.
  induction data as [|item rest IH]; intros i vars; simpl; [auto|].
  destruct (item_lat_lon float_literal item) as [[la lo]|e].
  - destruct (first_marker vars);
      match goal with |- context [plot_loop float_literal ?j rest ?v] =>
        destruct (IH j v) as [-> ->] end; auto.
  - destruct (handled e); [apply IH | auto].
Qed.

Lemma plot_markers_session (data : pyval) (a : App) :
  session_part (fst (plot_markers_on_map float_literal data a)) = session_part a
  /\ state (fst (plot_markers_on_map float_literal data a)) = state a.
Proof.
  unfold plot_markers_on_map.
  destruct data as [| | | | |l|]; try (split; reflexivity).
  destruct l as [|item rest]; [split; reflexivity|].
  match goal with |- context [plot_loop float_literal ?j ?l ?v] =>
    pose proof (plot_loop_session l j v) as H;
    destruct (plot_loop float_literal j l v) as [vars [e|]] end;
    cbn [fst] in *.
  - exact H.
  - destruct (0 <? plotted_count vars)%nat; cbn [fst];
      rewrite update_results_session, update_results_state; exact H.
Qed.

Lemma run_callback_session (cb : callback) (a : App) :
  session_part (run_callback float_literal cb a) = session_part a.
Proof.
  destruct cb; cbn [run_callback];
    try reflexivity; try apply update_results_session.
  apply plot_markers_session.
Qed.

Lemma run_callbacks_session (q : list callback) (a : App) :
  session_part (run_callbacks float_literal q a) = session_part a.
Proof.
  revert a; induction q as [|cb q IH]; intros a; [reflexivity|].
  unfold run_callbacks in *. cbn [fold_left].
  now rewrite IH, run_callback_session.
Qed.

Lemma run_callbacks_app (q1 q2 : list callback) (a : App) :
  run_callbacks float_literal (q1 ++ q2)%list a
  = run_callbacks float_literal q2 (run_callbacks float_literal q1 a).
Proof. apply fold_left_app. Qed.

End ControllerFacts.

(** ** The clear command *)

Lemma clear_history_refused (a : App) :
  state_in (state a) [IDLE; ANALYZING] = false ->
  clear_history a
  = with_ui (showwarning (fst clear_warning) (snd clear_warning)) a.
Proof. unfold clear_history. intros H. rewrite H. reflexivity. Qed.

(** C1 as stated fails: with the final analysis in flight
    (state ANALYZING, one frame sent), [clear_history] is not refused; it
    discards the session and shows no warning. *)
Lemma clear_while_analyzing_is_performed :
  state Sample.analyzing = ANALYZING
  /\ chat_session Sample.analyzing = Some 0
  /\ captured_frames Sample.analyzing = [7]
  /\ ~ clear_rejected Sample.analyzing
  /\ clear_performed Sample.analyzing.
Proof.
  split; [reflexivity|].
  split; [reflexivity|].
  split; [reflexivity|].
  split.
  - intros (H & _). vm_compute in H. discriminate H.
  - vm_compute. repeat split.
Qed.

Lemma clear_history_rejects (a : App) :
  state a = RECORDING \/ state a = PAUSED ->
  clear_rejected a
  /\ ui (clear_history a)
     = showwarning (fst clear_warning) (snd clear_warning) (ui a).
Proof.
  intros H.
  assert (R : state_in (state a) [IDLE; ANALYZING] = false)
    by (destruct H as [-> | ->]; reflexivity).
  unfold clear_rejected. rewrite (clear_history_refused a R).
  repeat split.
Qed.

Lemma clear_history_performs (a : App) :
  state a = IDLE \/ state a = ANALYZING -> clear_performed a.
Proof.
  intros H. unfold clear_performed, clear_history.
  destruct H as [-> | ->]; cbn [state_in existsb app_state_eqb orb negb];
    unfold cancel_frame_sender;
    destruct (frame_sender_job_id a); repeat split.
Qed.

(** C1 (amended): [clear_history] is refused exactly in RECORDING and PAUSED,
    where it shows a warning and changes nothing else; in IDLE and in
    ANALYZING it drops the session handle, empties the frame sequence,
    resets the counter to 0, removes the markers and leaves the state IDLE. *)
Theorem clear_history_guard (a : App) :
  (state a = RECORDING \/ state a = PAUSED ->
   clear_rejected a
   /\ ui (clear_history a)
      = showwarning (fst clear_warning) (snd clear_warning) (ui a))
  /\ (state a = IDLE \/ state a = ANALYZING -> clear_performed a).
Proof.
  split; [apply clear_history_rejects | apply clear_history_performs].
Qed.

Lemma clear_history_guard_witness :
  clear_rejected Sample.recording /\ clear_performed Sample.stopped_early.
Proof.
  split.
  - apply (proj1 (clear_history_guard Sample.recording)). left. reflexivity.
  - apply (proj2 (clear_history_guard Sample.stopped_early)).
    right. reflexivity.
Defined.

(** ** Background threads *)

Lemma perform_quiet (act : action) (a : App) :
  writes_shared act = false ->
  chat_session (perform act a) = chat_session a
  /\ captured_frames (perform act a) = captured_frames a
  /\ frame_count (perform act a) = frame_count a
  /\ state (perform act a) = state a
  /\ ui (perform act a) = ui a.
Proof. destruct act; intros H; try discriminate H; repeat split. Qed.

(** No statement of a thread writes the state flag or a widget. *)
Lemma run_thread_state (body : list action) (a : App) :
  state (run_thread body a) = state a
  /\ ui (run_thread body a) = ui a
  /\ chat_session (run_thread body a) = chat_session a.
Proof.
  revert a; induction body as [|act body IH]; intros a; [repeat split|].
  unfold run_thread in *. cbn [fold_left].
  destruct (IH (perform act a)) as (-> & -> & ->).
  destruct act; repeat split.
Qed.

(** A thread that only posts and sends leaves the frames and the counter as
    they are; its callbacks join the queue and its turns the log. *)
Lemma run_thread_posts_only (body : list action) (a : App) :
  posts_only body ->
  run_thread body a
  = set_after_queue (after_queue a ++ posted body)%list
      (set_sent (sent a ++ sends body)%list a).
Proof.
  unfold posts_only, run_thread.
  revert a; induction body as [|act body IH]; intros a H.
  - destruct a. cbn. now rewrite !app_nil_r.
  - inversion H as [|? ? Hact Hbody]; subst. cbn [fold_left].
    rewrite (IH _ Hbody).
    destruct act; try discriminate Hact; destruct a; cbn;
      rewrite <- ?app_assoc; try rewrite app_nil_r; reflexivity.
Qed.

Lemma send_worker_cases (cap : option image) (r : send_result) (a : App) :
  (_send_frame_worker cap r a = []
   /\ (state a <> RECORDING \/ chat_session a = None))
  \/ (exists s, chat_session a = Some s /\ state a = RECORDING
       /\ cap = None
       /\ _send_frame_worker cap r a
          = [capture_screen_to_image monitor_to_capture])
  \/ (exists s img e, chat_session a = Some s /\ state a = RECORDING
       /\ cap = Some img /\ r = SendFails e
       /\ _send_frame_worker cap r a
          = [capture_screen_to_image monitor_to_capture;
             send_message s [Prompt PROMPT_FOR_FRAME; Image img]])
  \/ (exists s img reply, chat_session a = Some s /\ state a = RECORDING
       /\ cap = Some img /\ r = Reply reply
       /\ _send_frame_worker cap r a
          = [capture_screen_to_image monitor_to_capture;
             send_message s [Prompt PROMPT_FOR_FRAME; Image img];
             append_frame img; incr_frame_count;
             after0 update_frame_count_cb]).
Proof.
  unfold _send_frame_worker.
  destruct (state a) eqn:S; cbn [app_state_eqb negb orb];
    try (left; split; [reflexivity | left; discriminate]).
  destruct (chat_session a) as [s|] eqn:C; cbn [truthy negb];
    [|left; split; [reflexivity | now right]].
  right. destruct cap as [img|].
  - destruct r as [reply|e].
    + right. right. exists s, img, reply. repeat split.
    + right. left. exists s, img, e. repeat split.
  - left. exists s. repeat split.
Qed.

(** The effect of one cycle on the session. *)
Lemma send_cycle_effect (cap : option image) (r : send_result) (a : App) :
  let a' := send_frame_cycle cap r a in
  (cap = None \/ (exists e, r = SendFails e) ->
     captured_frames a' = captured_frames a
     /\ frame_count a' = frame_count a
     /\ after_queue a' = after_queue a)
  /\ (forall s img reply,
        state a = RECORDING -> chat_session a = Some s ->
        cap = Some img -> r = Reply reply ->
        captured_frames a' = (captured_frames a ++ [img])%list
        /\ frame_count a' = frame_count a + 1
        /\ sent a' = (sent a ++ [(s, [Prompt PROMPT_FOR_FRAME; Image img])])%list
        /\ after_queue a' = (after_queue a ++ [update_frame_count_cb])%list).
Proof.
  intros a'. subst a'. unfold send_frame_cycle.
  destruct (send_worker_cases cap r a)
    as [(E & G) | [(s & C & S & Hc & E) | [(s & img & e & C & S & Hc & Hr & E)
        | (s & img & reply & C & S & Hc & Hr & E)]]];
    rewrite E; clear E.
  - split; [intros _; repeat split|].
    intros s img reply S C. destruct G; congruence.
  - split; [intros _; repeat split | intros; congruence].
  - split; [intros _; repeat split | intros; congruence].
  - subst cap r. split; [intros [H | [e H]]; discriminate H|].
    intros s' img' reply' _ C' [= <-] _.
    assert (s' = s) as -> by congruence. repeat split.
Qed.

(** In the body of a cycle, a statement that writes the frames or the
    counter has the send of that frame before it. *)
Lemma send_precedes_append (cap : option image) (r : send_result) (a : App) :
  forall pre act post,
    _send_frame_worker cap r a = (pre ++ act :: post)%list ->
    writes_shared act = true ->
    exists s img reply,
      cap = Some img /\ r = Reply reply
      /\ In (send_message s [Prompt PROMPT_FOR_FRAME; Image img]) pre.
Proof.
  destruct (send_worker_cases cap r a)
    as [(E & G) | [(s & C & S & Hc & E) | [(s & img & e & C & S & Hc & Hr & E)
        | (s & img & reply & C & S & Hc & Hr & E)]]];
    rewrite E; clear E.
  - intros [|? pre] act post H; discriminate H.
  - intros [|? [|? pre]] act post H W; try discriminate H.
    injection H as <- _. discriminate W.
  - intros [|? [|? [|? pre]]] act post H W; try discriminate H.
    + injection H as <- _. discriminate W.
    + injection H as _ <- _. discriminate W.
  - intros pre act post H W. exists s, img, reply.
    split; [assumption|]. split; [assumption|].
    destruct pre as [|x0 [|x1 pre]].
    + injection H as <- _. discriminate W.
    + injection H as _ <- _. discriminate W.
    + injection H as _ <- _. right. left. reflexivity.
Qed.

Lemma send_at_most_once (cap : option image) (r : send_result) (a : App) :
  List.length (filter is_send (_send_frame_worker cap r a)) <= 1.
Proof.
  destruct (send_worker_cases cap r a)
    as [(E & _) | [(s & _ & _ & _ & E) | [(s & img & e & _ & _ & _ & _ & E)
        | (s & img & reply & _ & _ & _ & _ & E)]]];
    rewrite E; cbn; lia.
Qed.

(** C7: in a capture-and-send cycle the worker sends at most once (no
    retry); a statement that appends the frame or increments the counter
    comes only after the send of that frame has returned; when the capture
    fails or the send raises, the frame sequence and the counter are as
    before; when the send returns, the frame is appended and the counter is
    incremented by one. *)
Theorem frame_kept_only_after_send
    (cap : option image) (r : send_result) (a : App) :
  let body := _send_frame_worker cap r a in
  let a' := send_frame_cycle cap r a in
  List.length (filter is_send body) <= 1
  /\ (forall pre act post,
        body = (pre ++ act :: post)%list -> writes_shared act = true ->
        exists s img reply,
          cap = Some img /\ r = Reply reply
          /\ In (send_message s [Prompt PROMPT_FOR_FRAME; Image img]) pre)
  /\ (cap = None \/ (exists e, r = SendFails e) ->
        captured_frames a' = captured_frames a
        /\ frame_count a' = frame_count a
        /\ after_queue a' = after_queue a)
  /\ (forall s img reply,
        state a = RECORDING -> chat_session a = Some s ->
        cap = Some img -> r = Reply reply ->
        captured_frames a' = (captured_frames a ++ [img])%list
        /\ frame_count a' = frame_count a + 1
        /\ sent a' = (sent a ++ [(s, [Prompt PROMPT_FOR_FRAME; Image img])])%list
        /\ after_queue a' = (after_queue a ++ [update_frame_count_cb])%list).
Proof.
  intros body a'.
  split; [apply send_at_most_once|].
  split; [apply send_precedes_append|].
  apply send_cycle_effect.
Qed.

Lemma frame_kept_only_after_send_witness :
  captured_frames
    (send_frame_cycle (Some 8) (Reply "A red bus.") Sample.recording) = [7; 8]
  /\ captured_frames
       (send_frame_cycle (Some 8) (SendFails "timed out") Sample.recording)
     = [7].
Proof.
  split.
  - exact (proj1 (proj2 (proj2 (proj2
             (frame_kept_only_after_send (Some 8) (Reply "A red bus.")
                Sample.recording)))
             0 8 "A red bus." eq_refl eq_refl eq_refl eq_refl)).
  - exact (proj1 (proj1 (proj2 (proj2
             (frame_kept_only_after_send (Some 8) (SendFails "timed out")
                Sample.recording)))
             (or_intror (ex_intro _ "timed out" eq_refl)))).
Defined.

(** C10 as stated fails: the capture-and-send worker, run with a
    capture and a send that both succeed, appends to [captured_frames] and
    increments [frame_count] in its own thread; the only callback it posts
    to the main loop is the refresh of the counter label. *)
Lemma send_worker_writes_from_its_thread :
  let body :=
    _send_frame_worker (Some 8) (Reply "A red bus.") Sample.recording in
  ~ posts_only body
  /\ In (append_frame 8) body
  /\ In incr_frame_count body
  /\ posted body = [update_frame_count_cb].
Proof.
  vm_compute _send_frame_worker. cbv zeta.
  split; [|cbn; auto 10].
  intros H. unfold posts_only in H. rewrite Forall_forall in H.
  specialize (H (append_frame 8)). cbn in H.
  assert (true = false) as E by (apply H; auto 10). discriminate E.
Qed.

(** ** The final analysis *)

Lemma posted_app (b1 b2 : list action) :
  posted (b1 ++ b2)%list = (posted b1 ++ posted b2)%list.
Proof.
  induction b1 as [|act b1 IH]; [reflexivity|].
  destruct act; cbn; now rewrite ?IH.
Qed.

Lemma sends_app (b1 b2 : list action) :
  sends (b1 ++ b2)%list = (sends b1 ++ sends b2)%list.
Proof.
  induction b1 as [|act b1 IH]; [reflexivity|].
  destruct act; cbn; now rewrite ?IH.
Qed.

Lemma posts_only_app (b1 b2 : list action) :
  posts_only b1 -> posts_only b2 -> posts_only (b1 ++ b2)%list.
Proof. unfold posts_only. intros. apply Forall_app. auto. Qed.

Section FinalAnalysis.

Variable json_loads : string -> loads_result.
Variable float_literal : string -> bool.

(** The three outcomes of the parse, with the callbacks each one posts. *)
Lemma parse_reply_cases (full_text : string) :
  let start_index := find full_text json_start_marker in
  let end_index := find full_text json_end_marker in
  let analysis_part := strip (slice full_text 0 start_index) in
  let json_string :=
    strip (slice full_text (start_index + len json_start_marker) end_index) in
  ((start_index = -1 \/ end_index = -1 \/ end_index <= start_index)%Z
   /\ parse_reply json_loads full_text
      = [after0 (update_results_cb
                   ("Warning: JSON markers not found." ++ nl
                    ++ "Full response in Analysis tab.") false coords);
         after0 (update_results_cb full_text false analysis)])
  \/ ((0 <= start_index < end_index)%Z
      /\ exists data,
           json_loads json_string = Loaded data
           /\ parse_reply json_loads full_text
              = [after0 (plot_markers_cb data);
                 after0 (update_results_cb analysis_part false analysis)])
  \/ ((0 <= start_index < end_index)%Z
      /\ exists json_err,
           json_loads json_string = JSONDecodeError json_err
           /\ parse_reply json_loads full_text
              = [after0 (update_results_cb
                           ("Error parsing JSON block: " ++ json_err ++ nl
                            ++ "Raw JSON:" ++ nl ++ json_string)
                           false coords);
                 after0 (update_results_cb analysis_part false analysis)])
  \/ ((0 <= start_index < end_index)%Z
      /\ exists e,
           json_loads json_string = LoadsRaises e
           /\ parse_reply json_loads full_text = on_exception e).
Proof.
  intros start_index end_index analysis_part json_string.
  unfold parse_reply.
  fold start_index end_index. fold analysis_part. fold json_string.
  assert (Hs : (-1 <= start_index)%Z).
  { subst start_index. unfold find. destruct find_from; lia. }
  destruct (Z.eqb_spec start_index (-1)) as [E1|E1]; cbn [negb andb].
  { left. split; [auto | reflexivity]. }
  destruct (Z.eqb_spec end_index (-1)) as [E2|E2]; cbn [negb andb].
  { left. split; [auto | reflexivity]. }
  destruct (Z.ltb_spec start_index end_index) as [E3|E3].
  - right. destruct (json_loads json_string) as [data|json_err|e] eqn:L.
    + left. split; [lia|]. exists data. split; reflexivity.
    + right. left. split; [lia|]. exists json_err. split; reflexivity.
    + right. right. split; [lia|]. exists e. split; reflexivity.
  - left. split; [auto | reflexivity].
Qed.

Lemma parse_reply_posts_only (full_text : string) :
  posts_only (parse_reply json_loads full_text).
Proof.
  destruct (parse_reply_cases full_text)
    as [(_ & ->) | [(_ & data & _ & ->)
        | [(_ & e & _ & ->) | (_ & e & _ & ->)]]];
    repeat constructor.
Qed.

Lemma final_worker_posts_only (r : send_result) (a : App) :
  posts_only (_final_analysis_worker json_loads r a).
Proof.
  unfold _final_analysis_worker.
  destruct (chat_session a) as [s|]; [|repeat constructor].
  destruct (captured_frames a) as [|img frames]; [repeat constructor|].
  apply posts_only_app; [repeat constructor|].
  apply posts_only_app; [|repeat constructor].
  destruct r; [apply parse_reply_posts_only | repeat constructor].
Qed.

Lemma final_analysis_unfold (r : send_result) (a : App) :
  final_analysis json_loads float_literal r a
  = run_callbacks float_literal
      (posted (_final_analysis_worker json_loads r a)) (reached json_loads float_literal r a).
Proof.
  unfold final_analysis, drain, reached.
  rewrite run_thread_posts_only by apply final_worker_posts_only.
  destruct a. cbn.
  apply run_callbacks_app.
Qed.

Lemma reached_session (r : send_result) (a : App) :
  chat_session (reached json_loads float_literal r a) = chat_session a
  /\ captured_frames (reached json_loads float_literal r a) = captured_frames a
  /\ frame_count (reached json_loads float_literal r a) = frame_count a
  /\ sent (reached json_loads float_literal r a)
     = (sent a ++ sends (_final_analysis_worker json_loads r a))%list.
Proof.
  pose proof (run_callbacks_session float_literal (after_queue a)
    (set_after_queue []
       (set_sent (sent a ++ sends (_final_analysis_worker json_loads r a))%list a)))
    as H.
  fold (reached json_loads float_literal r a) in H. unfold session_part in H. cbn in H.
  injection H as -> -> -> ->. repeat split.
Qed.

Lemma worker_without_session (r : send_result) (a : App) :
  chat_session a = None ->
  _final_analysis_worker json_loads r a
  = [after0 (update_results_cb "Error: No active session to analyze."
               false analysis);
     after0 (update_results_cb "Error: No active session to analyze."
               false coords);
     after0 finalize_analysis_ui_cb].
Proof. unfold _final_analysis_worker. now intros ->. Qed.

Lemma worker_without_frames (r : send_result) (a : App) (s : session_id) :
  chat_session a = Some s -> captured_frames a = [] ->
  _final_analysis_worker json_loads r a
  = [after0 (update_results_cb
               "Error: No frames were captured during the session."
               false analysis);
     after0 (update_results_cb
               "Error: No frames were captured during the session."
               false coords);
     after0 finalize_analysis_ui_cb].
Proof. unfold _final_analysis_worker. now intros -> ->. Qed.

Lemma worker_posts_on_reply (full_text : string) (a : App) (s : session_id) :
  chat_session a = Some s -> captured_frames a <> [] ->
  posted (_final_analysis_worker json_loads (Reply full_text) a)
  = ([sending_notice_cb;
      update_results_cb "Waiting for analysis..." false coords;
      delete_all_marker_cb]
     ++ posted (parse_reply json_loads full_text)
     ++ [finalize_analysis_ui_cb])%list.
Proof.
  unfold _final_analysis_worker. intros -> H.
  destruct (captured_frames a) as [|img frames]; [contradiction|].
  rewrite !posted_app. reflexivity.
Qed.

(** Where the markers are found in a reply that has them in order. *)
Lemma markers_located (pre span post : string) :
  let full_text :=
    pre ++ json_start_marker ++ span ++ json_end_marker ++ post in
  first_at json_start_marker full_text (String.length pre) ->
  first_at json_end_marker full_text
    (String.length pre + String.length json_start_marker
     + String.length span) ->
  let start_index := find full_text json_start_marker in
  let end_index := find full_text json_end_marker in
  (0 <= start_index < end_index)%Z
  /\ slice full_text 0 start_index = pre
  /\ slice full_text (start_index + len json_start_marker) end_index = span.
Proof.
  intros full_text Hs He start_index end_index.
  apply PyStrFacts.find_first in Hs, He.
  fold start_index in Hs. fold end_index in He.
  split; [|split].
  - rewrite Hs, He. cbn [json_start_marker String.length]. lia.
  - rewrite Hs. apply PyStrFacts.slice_prefix.
  - rewrite Hs, He. subst full_text.
    rewrite <- (PyStrFacts.app_assoc pre json_start_marker).
    replace (Z.of_nat (String.length pre) + len json_start_marker)%Z
      with (len (pre ++ json_start_marker))
      by (unfold len; rewrite PyStrFacts.length_app; lia).
    replace (Z.of_nat (String.length pre + String.length json_start_marker
                       + String.length span))
      with (len (pre ++ json_start_marker) + len span)%Z
      by (unfold len; rewrite PyStrFacts.length_app; lia).
    apply PyStrFacts.slice_middle.
Qed.

(** C8: the final analysis checks two preconditions, a session handle and
    a non-empty frame sequence.  When one is violated, the error message
    is shown on both channels (it replaces the analysis text and the
    coordinate label), the state is IDLE afterwards, and the session
    client is not called: the thread sends nothing and the log of sends
    is as before. *)
Theorem final_analysis_preconditions (r : send_result) (a : App) :
  chat_session a = None \/ captured_frames a = [] ->
  let a' := final_analysis json_loads float_literal r a in
  let msg :=
    match chat_session a with
    | None => "Error: No active session to analyze."
    | Some _ => "Error: No frames were captured during the session."
    end in
  analysis_text (ui a') = msg ++ nl
  /\ coords_status_label (ui a') = msg
  /\ state a' = IDLE
  /\ sends (_final_analysis_worker json_loads r a) = []
  /\ sent a' = sent a
  /\ chat_session a' = chat_session a
  /\ captured_frames a' = captured_frames a.
Proof.
  intros H a' msg. subst a'. rewrite final_analysis_unfold.
  destruct (reached_session r a) as (Hc & Hf & _ & Hs).
  assert (E : _final_analysis_worker json_loads r a
              = [after0 (update_results_cb msg false analysis);
                 after0 (update_results_cb msg false coords);
                 after0 finalize_analysis_ui_cb]).
  { subst msg. destruct (chat_session a) as [s|] eqn:C.
    - destruct H as [H|H]; [discriminate H|].
      now apply worker_without_frames with (s := s).
    - now apply worker_without_session. }
  rewrite E in *. clearbody msg.
  revert Hc Hf Hs. generalize (reached json_loads float_literal r a).
  intros X Hc Hf Hs. cbn in Hs. rewrite app_nil_r in Hs.
  repeat split; assumption.
Qed.

(** C5: when the reply lacks the start marker, or lacks the end marker, or
    its first start marker does not come before its first end marker, the
    whole reply is shown as the analysis text, the coordinate label shows
    the markers-not-found warning, and the map has no marker. *)
Theorem reply_without_block (full_text : string) (a : App) (s : session_id) :
  chat_session a = Some s -> captured_frames a <> [] ->
  absent json_start_marker full_text
  \/ absent json_end_marker full_text
  \/ (exists i j, first_at json_start_marker full_text i
                  /\ first_at json_end_marker full_text j /\ j <= i) ->
  let a' := final_analysis json_loads float_literal (Reply full_text) a in
  analysis_text (ui a') = full_text ++ nl
  /\ coords_status_label (ui a')
     = "Warning: JSON markers not found." ++ nl
       ++ "Full response in Analysis tab."
  /\ markers (ui a') = []
  /\ state a' = IDLE.
Proof.
  intros C Fr H a'. subst a'.
  rewrite final_analysis_unfold, (worker_posts_on_reply _ _ _ C Fr).
  destruct (parse_reply_cases full_text)
    as [(_ & ->) | [(Hlt & _) | [(Hlt & _) | (Hlt & _)]]].
  - generalize (reached json_loads float_literal (Reply full_text) a).
    intros X. repeat split.
  - exfalso. destruct H as [H | [H | (i & j & Hi & Hj & Hij)]].
    + apply PyStrFacts.find_absent in H. lia.
    + apply PyStrFacts.find_absent in H. lia.
    + apply PyStrFacts.find_first in Hi, Hj. lia.
  - exfalso. destruct H as [H | [H | (i & j & Hi & Hj & Hij)]].
    + apply PyStrFacts.find_absent in H. lia.
    + apply PyStrFacts.find_absent in H. lia.
    + apply PyStrFacts.find_first in Hi, Hj. lia.
  - exfalso. destruct H as [H | [H | (i & j & Hi & Hj & Hij)]].
    + apply PyStrFacts.find_absent in H. lia.
    + apply PyStrFacts.find_absent in H. lia.
    + apply PyStrFacts.find_first in Hi, Hj. lia.
Qed.

(** When the markers are there in order and [json.loads] raises a
    [JSONDecodeError] on the block between them, the map has no marker, the
    coordinate label is the error report, which ends with the block as it
    was handed to the decoder, and the analysis text is the text before the
    start marker. *)
Theorem undecodable_block
    (pre span post json_err : string) (a : App) (s : session_id) :
  let full_text :=
    pre ++ json_start_marker ++ span ++ json_end_marker ++ post in
  chat_session a = Some s -> captured_frames a <> [] ->
  first_at json_start_marker full_text (String.length pre) ->
  first_at json_end_marker full_text
    (String.length pre + String.length json_start_marker
     + String.length span) ->
  json_loads (strip span) = JSONDecodeError json_err ->
  let a' := final_analysis json_loads float_literal (Reply full_text) a in
  markers (ui a') = []
  /\ coords_status_label (ui a')
     = "Error parsing JSON block: " ++ json_err ++ nl
       ++ "Raw JSON:" ++ nl ++ strip span
  /\ analysis_text (ui a') = strip pre ++ nl
  /\ state a' = IDLE.
Proof.
  intros full_text C Fr Hs He L a'. subst a'.
  rewrite final_analysis_unfold, (worker_posts_on_reply _ _ _ C Fr).
  destruct (markers_located pre span post Hs He) as (Hlt & Epre & Espan).
  fold full_text in Hlt, Epre, Espan.
  destruct (parse_reply_cases full_text)
    as [(Hno & _) | [(_ & data & L' & _)
        | [(_ & e & L' & ->) | (_ & e & L' & _)]]].
  - exfalso. lia.
  - rewrite Espan in L'. congruence.
  - rewrite Espan in L'. rewrite Epre, Espan.
    assert (e = json_err) as -> by congruence.
    generalize (reached json_loads float_literal (Reply full_text) a).
    intros X. repeat split.
  - rewrite Espan in L'. congruence.
Qed.

Lemma float_number (v : pyval) (f : pyfloat) :
  number v f -> float float_literal v = Ok f.
Proof.
  intros [z Hz | f']; cbn [float]; [|reflexivity].
  apply Z.ltb_lt in Hz. now rewrite Hz.
Qed.

Lemma valid_record_lat_lon (item : pyval) (c : pyfloat * pyfloat) :
  valid_record item c -> item_lat_lon float_literal item = Ok c.
Proof.
  intros (d & vlat & vlon & -> & Hla & Nla & Hlo & Nlo).
  unfold item_lat_lon, get. rewrite Hla, Hlo. cbn [bind].
  rewrite (float_number _ _ Nla). cbn [bind].
  rewrite (float_number _ _ Nlo). cbn [bind].
  now destruct c.
Qed.

Lemma plot_loop_valid (recs : list pyval) (cs : list (pyfloat * pyfloat)) :
  Forall2 valid_record recs cs ->
  forall i vars,
    snd (plot_loop float_literal i recs vars) = None
    /\ markers (ui (app (fst (plot_loop float_literal i recs vars))))
       = (markers (ui (app vars)) ++ ranked_from i cs)%list
    /\ plotted_count (fst (plot_loop float_literal i recs vars))
       = plotted_count vars + List.length cs.
Proof.
  induction 1 as [|item c recs cs Hv _ IH]; intros i vars.
  - cbn. rewrite app_nil_r. auto.
  - cbn [plot_loop]. rewrite (valid_record_lat_lon _ _ Hv).
    destruct c as [la lo].
    destruct (first_marker vars);
      match goal with |- context [plot_loop float_literal ?j recs ?v] =>
        destruct (IH j v) as (-> & -> & ->) end;
      cbn; rewrite <- app_assoc; repeat split; lia.
Qed.

Lemma ranked_from_length (cs : list (pyfloat * pyfloat)) (i : nat) :
  List.length (ranked_from i cs) = List.length cs.
Proof.
  revert i; induction cs as [|[la lo] cs IH]; intros i; cbn;
    [reflexivity | now rewrite IH].
Qed.

Lemma ranked_from_nth (cs : list (pyfloat * pyfloat)) :
  forall i k c,
    nth_error cs k = Some c ->
    nth_error (ranked_from i cs) k
    = Some {| lat := fst c; lon := snd c; text := str (i + k + 1) |}.
Proof.
  induction cs as [|[la lo] cs IH]; intros i [|k] c H; try discriminate H.
  - injection H as <-. cbn. now rewrite Nat.add_0_r.
  - cbn. rewrite (IH (S i) k c H). do 3 f_equal. lia.
Qed.

Lemma plot_markers_valid
    (recs : list pyval) (cs : list (pyfloat * pyfloat)) (a : App) :
  Forall2 valid_record recs cs ->
  markers (ui (fst (plot_markers_on_map float_literal (PyList recs) a)))
  = ranked_from 0 cs.
Proof.
  intros H. unfold plot_markers_on_map. cbv zeta.
  destruct recs as [|item recs]; [inversion H; reflexivity|].
  match goal with |- context [plot_loop float_literal ?j ?l ?v] =>
    destruct (plot_loop_valid _ _ H j v) as (Hn & Hm & _);
    destruct (plot_loop float_literal j l v) as [vars e] end.
  cbn [fst snd] in *. subst e.
  destruct (0 <? plotted_count vars)%nat; cbn [fst]; exact Hm.
Qed.

(** C3: when the first start marker of the reply comes before its first
    end marker and the block between them, trimmed, decodes to a list of
    N valid records, the map gets exactly N markers, in input order, the
    k-th (from 0) labelled k + 1 and placed at the k-th record's
    coordinates; the analysis text is the text before the start marker,
    trimmed. *)
Theorem ranked_candidates
    (pre span post : string) (recs : list pyval)
    (cs : list (pyfloat * pyfloat)) (a : App) (s : session_id) :
  let full_text :=
    pre ++ json_start_marker ++ span ++ json_end_marker ++ post in
  chat_session a = Some s -> captured_frames a <> [] ->
  first_at json_start_marker full_text (String.length pre) ->
  first_at json_end_marker full_text
    (String.length pre + String.length json_start_marker
     + String.length span) ->
  json_loads (strip span) = Loaded (PyList recs) ->
  Forall2 valid_record recs cs ->
  let a' := final_analysis json_loads float_literal (Reply full_text) a in
  List.length (markers (ui a')) = List.length recs
  /\ (forall k c,
        nth_error cs k = Some c ->
        nth_error (markers (ui a')) k
        = Some {| lat := fst c; lon := snd c; text := str (k + 1) |})
  /\ markers (ui a') = ranked_from 0 cs
  /\ analysis_text (ui a') = strip pre ++ nl
  /\ state a' = IDLE.
Proof.
  intros full_text C Fr Hs He L V a'. subst a'.
  rewrite final_analysis_unfold, (worker_posts_on_reply _ _ _ C Fr).
  destruct (markers_located pre span post Hs He) as (Hlt & Epre & Espan).
  fold full_text in Hlt, Epre, Espan.
  destruct (parse_reply_cases full_text)
    as [(Hno & _) | [(_ & data & L' & ->)
        | [(_ & e & L' & _) | (_ & e & L' & _)]]];
    [exfalso; lia | | rewrite Espan in L'; congruence
     | rewrite Espan in L'; congruence].
  - rewrite Espan in L'. rewrite Epre.
    assert (data = PyList recs) as -> by congruence.
    generalize (reached json_loads float_literal (Reply full_text) a).
    intros X.
    match goal with |- context [markers (ui ?f)] =>
      assert (M : markers (ui f) = ranked_from 0 cs)
        by (cbn; apply plot_markers_valid, V) end.
    rewrite M, ranked_from_length.
    split; [symmetry; eapply Forall2_length; eassumption|].
    split; [intros k c Hk; apply (ranked_from_nth cs 0 k c Hk)|].
    repeat split.
Qed.

End FinalAnalysis.

(** ** Executions *)

Section Executions.

Variable json_loads : string -> loads_result.
Variable float_literal : string -> bool.

Lemma cancel_frame_sender_session (a : App) :
  session_part (cancel_frame_sender a) = session_part a
  /\ state (cancel_frame_sender a) = state a.
Proof.
  unfold cancel_frame_sender.
  destruct (frame_sender_job_id a); split; reflexivity.
Qed.

Lemma schedule_next_frame_session (a : App) :
  session_part (schedule_next_frame a) = session_part a
  /\ state (schedule_next_frame a) = state a.
Proof.
  unfold schedule_next_frame. destruct (state a) eqn:S; auto.
Qed.

(** What one event does to the handle, the frames and the counter: it
    keeps them, or it is a [clear] or a [start] without a session and
    resets the frames and the counter, or it is a send worker that adds
    one frame and counts it. *)
Lemma step_session (ev : event) (a : App) :
  let a' := step json_loads float_literal ev a in
  (chat_session a' = chat_session a
   /\ captured_frames a' = captured_frames a
   /\ frame_count a' = frame_count a)
  \/ (captured_frames a' = [] /\ frame_count a' = 0
      /\ ((ev = clear /\ chat_session a' = None)
          \/ (ev = start /\ chat_session a = None)))
  \/ (exists img,
        chat_session a' = chat_session a
        /\ captured_frames a' = (captured_frames a ++ [img])%list
        /\ frame_count a' = frame_count a + 1).
Proof.
  intros a'; subst a'. destruct ev as [| | | |j|cap r|r|]; cbn [step].
  - (* start *)
    unfold start_session.
    destruct (chat_session a) eqn:C.
    + left. rewrite <- C. repeat split.
    + right. left. repeat split. right. auto.
  - (* pause_resume *)
    left. unfold toggle_pause_resume.
    destruct (state a) eqn:S; cbn; try (repeat split; fail).
    unfold cancel_frame_sender; cbn.
    destruct (frame_sender_job_id a); repeat split.
  - (* stop *)
    left. unfold stop_and_analyze.
    destruct (state a) eqn:S; cbn; try (repeat split; fail);
      unfold cancel_frame_sender; cbn;
      destruct (frame_sender_job_id a); repeat split.
  - (* clear *)
    unfold clear_history.
    destruct (state a) eqn:S; cbn [state_in existsb app_state_eqb orb negb];
      try (left; repeat split; fail);
      right; left; unfold cancel_frame_sender;
      destruct (frame_sender_job_id a); repeat split; left; auto.
  - (* timer_fires *)
    left. destruct (existsb (Nat.eqb j) (timers a)); [|repeat split].
    unfold send_frame_task.
    change (state (after_cancel j a)) with (state a).
    destruct (state a) eqn:S; try (repeat split; fail).
    unfold schedule_next_frame.
    change (state (start_thread send_frame_thread (after_cancel j a)))
      with (state a).
    rewrite S. repeat split.
  - (* send_thread_runs *)
    destruct (take_thread send_frame_thread (threads a)) as [ts|];
      [|left; repeat split].
    pose proof (send_cycle_effect cap r (set_threads ts a))
      as (Hfail & Hok).
    pose proof (run_thread_state
                  (_send_frame_worker cap r (set_threads ts a))
                  (set_threads ts a)) as (_ & _ & Hc).
    fold (send_frame_cycle cap r (set_threads ts a)) in Hc.
    cbv zeta in Hfail, Hok.
    destruct (send_worker_cases cap r (set_threads ts a))
      as [(E & _) | [(s & C & S & Hcap & _)
          | [(s & img & e & C & S & Hcap & Hr & _)
          | (s & img & reply & C & S & Hcap & Hr & _)]]].
    + left. unfold send_frame_cycle. rewrite E. repeat split.
    + left. destruct Hfail as (-> & -> & _); auto.
    + left. destruct Hfail as (-> & -> & _); [right; eauto | auto].
    + right. right. exists img.
      destruct (Hok s img reply S C Hcap Hr) as (-> & -> & _). auto.
  - (* final_thread_runs *)
    left. destruct (take_thread final_analysis_thread (threads a)) as [ts|];
      [|repeat split].
    rewrite run_thread_posts_only by apply final_worker_posts_only.
    repeat split.
  - (* callback_runs *)
    left. unfold mainloop_step.
    destruct (after_queue a) as [|cb q]; [repeat split|].
    pose proof (run_callback_session float_literal cb (set_after_queue q a))
      as H.
    unfold session_part in H. injection H as -> -> -> _. repeat split.
Qed.

Lemma step_counter_matches (ev : event) (a : App) :
  counter_matches a ->
  counter_matches (step json_loads float_literal ev a).
Proof.
  unfold counter_matches. intros H.
  destruct (step_session ev a)
    as [(_ & -> & ->) | [(-> & -> & _) | (img & _ & -> & ->)]].
  - exact H.
  - reflexivity.
  - rewrite length_app, H. reflexivity.
Qed.

Lemma run_counter_matches (evs : list event) (a : App) :
  counter_matches a ->
  counter_matches (run json_loads float_literal evs a).
Proof.
  revert a; induction evs as [|ev evs IH]; intros a H; [exact H|].
  apply IH, step_counter_matches, H.
Qed.

(** When no capture-and-send thread is interrupted, the frame counter is
    the length of the frame sequence after every event: the commands
    start, pause/resume, stop and clear, a timer tick, a capture-and-send
    cycle (whatever the capture and the send do), the final-analysis
    thread, and each callback the main loop runs. *)
Lemma frame_count_mirrors_frames (evs : list event) :
  frame_count (run json_loads float_literal evs init)
  = List.length (captured_frames (run json_loads float_literal evs init)).
Proof. apply (run_counter_matches evs init). reflexivity. Qed.

Lemma worker_ends_with_finalize (r : send_result) (a : App) :
  exists q,
    posted (_final_analysis_worker json_loads r a)
    = (q ++ [finalize_analysis_ui_cb])%list.
Proof.
  unfold _final_analysis_worker.
  destruct (chat_session a) as [s|]; [|eexists [_; _]; reflexivity].
  destruct (captured_frames a) as [|img frames];
    [eexists [_; _]; reflexivity|].
  rewrite app_assoc, posted_app. eexists. reflexivity.
Qed.

(** Whatever the final analysis meets, it ends in IDLE with the handle,
    the frames and the counter it started with. *)
Lemma final_analysis_completes (r : send_result) (a : App) :
  let a' := final_analysis json_loads float_literal r a in
  state a' = IDLE
  /\ chat_session a' = chat_session a
  /\ captured_frames a' = captured_frames a
  /\ frame_count a' = frame_count a.
Proof.
  intros a'. subst a'. rewrite final_analysis_unfold.
  destruct (worker_ends_with_finalize r a) as [q ->].
  destruct (reached_session json_loads float_literal r a)
    as (Hc & Hf & Hn & _).
  rewrite run_callbacks_app.
  pose proof (run_callbacks_session float_literal q
                (reached json_loads float_literal r a)) as H.
  unfold session_part in H. injection H as Ec Ef En _.
  cbn. rewrite Ec, Ef, En. auto.
Qed.

Lemma stop_and_analyze_session (a : App) :
  state a = RECORDING \/ state a = PAUSED ->
  state (stop_and_analyze a) = ANALYZING
  /\ chat_session (stop_and_analyze a) = chat_session a
  /\ captured_frames (stop_and_analyze a) = captured_frames a.
Proof.
  unfold stop_and_analyze, cancel_frame_sender.
  intros [-> | ->]; cbn; destruct (frame_sender_job_id a); repeat split.
Qed.

(** C9: a stop request moves the state to ANALYZING, and when the final
    analysis is over, whatever the session client did, the state is IDLE
    and the session handle and the frame sequence are the ones the stop
    found.  Afterwards no event other than clear takes a session handle
    away or removes a frame (a capture-and-send cycle can only add one),
    and clear removes both. *)
Theorem stop_retains_session (r : send_result) (a : App) :
  state a = RECORDING \/ state a = PAUSED ->
  let a' := final_analysis json_loads float_literal r (stop_and_analyze a) in
  state (stop_and_analyze a) = ANALYZING
  /\ state a' = IDLE
  /\ chat_session a' = chat_session a
  /\ captured_frames a' = captured_frames a
  /\ (forall ev b,
        ev <> clear -> chat_session b <> None ->
        chat_session (step json_loads float_literal ev b) = chat_session b
        /\ exists more,
             captured_frames (step json_loads float_literal ev b)
             = (captured_frames b ++ more)%list)
  /\ chat_session (clear_history a') = None
  /\ captured_frames (clear_history a') = [].
Proof.
  intros H a'.
  destruct (stop_and_analyze_session a H) as (S & C & F).
  destruct (final_analysis_completes r (stop_and_analyze a))
    as (S' & C' & F' & _). fold a' in S', C', F'.
  split; [exact S|]. split; [exact S'|].
  split; [congruence|]. split; [congruence|]. split.
  - intros ev b Hev Hb.
    destruct (step_session ev b)
      as [(-> & -> & _) | [(_ & _ & [(E & _) | (_ & E)]) | (img & -> & -> & _)]].
    + split; [reflexivity | exists []; now rewrite app_nil_r].
    + contradiction.
    + contradiction.
    + split; [reflexivity | now exists [img]].
  - destruct (clear_history_performs a' (or_introl S'))
      as (_ & Hc & Hf & _).
    auto.
Qed.

(** C10 (amended): no statement of a background thread assigns the state
    flag, and the final-analysis thread writes no shared attribute itself:
    it only sends and posts callbacks for the main loop.  The
    capture-and-send thread also writes nothing shared unless its capture
    and its send succeed; then it appends the frame and increments the
    counter itself, in its own thread, and posts only the refresh of the
    counter label. *)
Theorem shared_state_writers
    (cap : option image) (r r' : send_result) (a : App) :
  let send_body := _send_frame_worker cap r a in
  let final_body := _final_analysis_worker json_loads r' a in
  state (run_thread send_body a) = state a
  /\ state (run_thread final_body a) = state a
  /\ posts_only final_body
  /\ (posts_only send_body
      \/ exists s img reply,
           cap = Some img /\ r = Reply reply
           /\ send_body
              = [capture_screen_to_image monitor_to_capture;
                 send_message s [Prompt PROMPT_FOR_FRAME; Image img];
                 append_frame img; incr_frame_count;
                 after0 update_frame_count_cb]).
Proof.
  intros send_body final_body.
  split; [apply run_thread_state|]. split; [apply run_thread_state|].
  split; [apply final_worker_posts_only|].
  destruct (send_worker_cases cap r a)
    as [(E & _) | [(s & _ & _ & _ & E) | [(s & img & e & _ & _ & _ & _ & E)
        | (s & img & reply & _ & _ & Hc & Hr & E)]]];
    fold send_body in E.
  - left. rewrite E. constructor.
  - left. rewrite E. repeat constructor.
  - left. rewrite E. repeat constructor.
  - right. exists s, img, reply. auto.
Qed.

End Executions.

(** ** Replies whose markers are in order *)

Lemma app_split (a c x y : string) :
  a ++ x = c ++ y -> String.length a <= String.length c ->
  exists u, c = a ++ u /\ x = u ++ y.
Proof.
  revert c; induction a as [|k a IH]; intros c H L.
  - exists c. auto.
  - destruct c as [|k' c]; [cbn in L; lia|].
    cbn in H. injection H as <- H.
    destruct (IH c H) as (u & -> & ->); [cbn in L; lia|].
    exists u. auto.
Qed.

(** The end marker cannot begin inside the start marker. *)
Lemma markers_do_not_overlap (u b d : string) :
  json_start_marker ++ b = u ++ json_end_marker ++ d ->
  0 < String.length u ->
  String.length json_start_marker <= String.length u.
Proof.
  intros H L. destruct u as [|k u]; [cbn in L; lia|].
  do 15 (destruct u as [|? u]; [cbn in H; discriminate H|]).
  cbn. lia.
Qed.

(** Every reply whose first start marker is before its first end marker
    reads: text, start marker, block, end marker, rest. *)
Lemma ordered_markers_split (full_text : string) (i j : nat) :
  first_at json_start_marker full_text i ->
  first_at json_end_marker full_text j ->
  i < j ->
  exists pre span post,
    full_text = pre ++ json_start_marker ++ span ++ json_end_marker ++ post
    /\ String.length pre = i
    /\ String.length pre + String.length json_start_marker
       + String.length span = j.
Proof.
  intros [(a & b & Ea & La) _] [(c & d & Ec & Lc) _] Hij.
  rewrite Ea in Ec.
  destruct (app_split a c _ _ Ec) as (u & -> & Eu); [lia|].
  rewrite PyStrFacts.length_app in Lc.
  pose proof (markers_do_not_overlap u b d Eu) as Hu.
  destruct (app_split json_start_marker u _ _ Eu) as (span & -> & Eb);
    [apply Hu; lia|].
  exists a, span, d. subst b.
  rewrite PyStrFacts.length_app in Lc.
  repeat split; [assumption | assumption | lia].
Qed.

(** ** Plotting a decoded list *)

Section Plotting.

Variable float_literal : string -> bool.

Lemma plot_loop_handled (data : list pyval) :
  all_handled float_literal data ->
  forall i vars,
    let done := plot_loop float_literal i data vars in
    let ms := expected_markers float_literal i data in
    snd done = None
    /\ markers (ui (app (fst done))) = (markers (ui (app vars)) ++ ms)%list
    /\ plotted_count (fst done) = plotted_count vars + List.length ms
    /\ match ms with
       | m :: _ =>
           first_marker vars = true ->
           map_position (ui (app (fst done))) = (lat m, lon m)
           /\ map_zoom (ui (app (fst done))) = 10
       | [] =>
           map_position (ui (app (fst done))) = map_position (ui (app vars))
           /\ map_zoom (ui (app (fst done))) = map_zoom (ui (app vars))
       end
    /\ (first_marker vars = false ->
        map_position (ui (app (fst done))) = map_position (ui (app vars))
        /\ map_zoom (ui (app (fst done))) = map_zoom (ui (app vars))).
Proof.
  induction 1 as [|item rest Hitem _ IH]; intros i vars; cbn zeta.
  - cbn. rewrite app_nil_r. auto 10.
  - cbn [plot_loop expected_markers].
    destruct (item_lat_lon float_literal item) as [[la lo]|e] eqn:E.
    + destruct (first_marker vars) eqn:F;
        match goal with |- context [plot_loop float_literal ?j rest ?v] =>
          destruct (IH j v) as (-> & -> & -> & _ & Hkeep) end;
        destruct (Hkeep eq_refl) as (-> & ->);
        cbn; rewrite <- app_assoc;
        repeat split; try lia; try discriminate.
    + rewrite (Hitem e eq_refl). apply IH.
Qed.

(** What plotting does when no record fails with an unhandled exception:
    the supporting fact for C4. *)
Lemma plot_markers_handled (data : list pyval) (a : App) :
  all_handled float_literal data ->
  let done := plot_markers_on_map float_literal (PyList data) a in
  let ms := expected_markers float_literal 0 data in
  snd done = None
  /\ markers (ui (fst done)) = ms
  /\ coords_status_label (ui (fst done))
     = match data, ms with
       | [], _ => "Parsed JSON coordinate data is empty or not a list."
       | _, [] => "Parsed JSON, but no valid coordinates to plot."
       | _, _ => "Plotted " ++ str (List.length ms)
                 ++ " potential locations (ranked)."
       end
  /\ match ms with
     | m :: _ => map_position (ui (fst done)) = (lat m, lon m)
                 /\ map_zoom (ui (fst done)) = 10
     | [] => map_position (ui (fst done)) = map_position (ui a)
             /\ map_zoom (ui (fst done)) = map_zoom (ui a)
     end.
Proof.
  intros H. unfold plot_markers_on_map. cbv zeta.
  destruct data as [|item rest]; [cbn; auto|].
  match goal with |- context [plot_loop float_literal ?j ?l ?v] =>
    generalize (plot_loop_handled l H j v);
    destruct (plot_loop float_literal j l v) as [vars e] end.
  cbv zeta. cbn [fst snd].
  generalize (expected_markers float_literal 0 (item :: rest)).
  intros ms (-> & Hm & Hn & Hpos & _). cbn in Hm, Hn.
  destruct ms as [|m ms].
  - cbn in Hn. rewrite Hn. cbn. auto.
  - cbn in Hn. rewrite Hn. cbn. destruct (Hpos eq_refl) as (-> & ->). auto.
Qed.

End Plotting.

(** ** The sample replies *)

(** One record with a latitude that is no number, one valid record: the
    first is skipped, the second is plotted under its own position, 2. *)
Lemma one_invalid_record_is_skipped :
  markers (ui (Sample.analysis Sample.one_bad_record))
  = [{| lat := fst Sample.london; lon := snd Sample.london; text := "2" |}]
  /\ coords_status_label (ui (Sample.analysis Sample.one_bad_record))
     = "Plotted 1 potential locations (ranked)."
  /\ map_position (ui (Sample.analysis Sample.one_bad_record)) = Sample.london
  /\ map_zoom (ui (Sample.analysis Sample.one_bad_record)) = 10.
Proof. vm_compute. repeat split. Qed.

(** C4 fails on the code: a latitude that is an integer too large for a
    float makes [float()] raise OverflowError, which the [except] clause of
    the loop does not name.  The exception leaves [plot_markers_on_map]: the
    valid record after it is not plotted, no marker is on the map, and no
    count is reported (the coordinate label still shows the waiting
    notice). *)
Theorem huge_latitude_aborts_plotting :
  let huge := Sample.dict (PyInt (10 ^ 309)) (PyFloat (snd Sample.paris)) in
  let data := PyList [huge; Sample.place Sample.london] in
  let a' := Sample.analysis Sample.huge_latitude in
  Sample.json_loads Sample.huge_latitude = Loaded data
  /\ item_lat_lon Sample.float_literal huge = Raise OverflowError
  /\ handled OverflowError = false
  /\ valid_record (Sample.place Sample.london) Sample.london
  /\ snd (plot_markers_on_map Sample.float_literal data Sample.analyzing)
     = Some OverflowError
  /\ markers (ui a') = []
  /\ coords_status_label (ui a') = "Waiting for analysis...".
Proof.
  cbv zeta.
  split; [vm_compute; reflexivity|].
  split; [vm_compute; reflexivity|].
  split; [reflexivity|].
  split.
  { eexists _, _, _. split; [reflexivity|].
    split; [reflexivity|]. split; [constructor|].
    split; [reflexivity | constructor]. }
  split; [vm_compute; reflexivity|].
  split; vm_compute; reflexivity.
Qed.

Lemma ranked_candidates_witness :
  markers (ui (Sample.analysis Sample.two_records))
  = [{| lat := fst Sample.paris; lon := snd Sample.paris; text := "1" |};
     {| lat := fst Sample.london; lon := snd Sample.london; text := "2" |}]
  /\ analysis_text (ui (Sample.analysis Sample.two_records))
     = Sample.free_text ++ nl.
Proof.
  assert (V : Forall2 valid_record
                [Sample.place Sample.paris; Sample.place Sample.london]
                [Sample.paris; Sample.london]).
  { repeat constructor;
      (eexists _, _, _; split; [reflexivity|];
       split; [reflexivity|]; split; [constructor|];
       split; [reflexivity | constructor]). }
  destruct (ranked_candidates Sample.json_loads Sample.float_literal
              (Sample.free_text ++ nl) (nl ++ Sample.two_records ++ nl) ""
              [Sample.place Sample.paris; Sample.place Sample.london]
              [Sample.paris; Sample.london] Sample.analyzing 0
              eq_refl
              ltac:(discriminate)
              ltac:(apply PyStrFacts.find_first; reflexivity)
              ltac:(apply PyStrFacts.find_first; reflexivity)
              eq_refl V)
    as (_ & _ & M & T & _).
  split; [exact M | exact T].
Defined.

Lemma reply_without_block_witness :
  analysis_text
    (ui (final_analysis Sample.json_loads Sample.float_literal
           (Reply Sample.reply_without_end) Sample.analyzing))
  = Sample.reply_without_end ++ nl.
Proof.
  refine (proj1 (reply_without_block Sample.json_loads Sample.float_literal
                   Sample.reply_without_end Sample.analyzing 0
                   eq_refl ltac:(discriminate) _)).
  right. left. apply PyStrFacts.find_absent. reflexivity.
Defined.

Lemma undecodable_block_witness :
  markers (ui (Sample.analysis Sample.truncated)) = []
  /\ coords_status_label (ui (Sample.analysis Sample.truncated))
     = "Error parsing JSON block: " ++ Sample.cut_short ++ nl
       ++ "Raw JSON:" ++ nl ++ Sample.truncated.
Proof.
  destruct (undecodable_block Sample.json_loads Sample.float_literal
              (Sample.free_text ++ nl) (nl ++ Sample.truncated ++ nl) ""
              Sample.cut_short Sample.analyzing 0
              eq_refl
              ltac:(discriminate)
              ltac:(apply PyStrFacts.find_first; reflexivity)
              ltac:(apply PyStrFacts.find_first; reflexivity)
              eq_refl)
    as (M & L & _).
  split; [exact M | exact L].
Defined.

Lemma final_analysis_preconditions_witness :
  state (final_analysis Sample.json_loads Sample.float_literal
           (Reply "never received") Sample.stopped_early) = IDLE
  /\ sent (final_analysis Sample.json_loads Sample.float_literal
             (Reply "never received") Sample.stopped_early) = [].
Proof.
  destruct (final_analysis_preconditions Sample.json_loads
              Sample.float_literal (Reply "never received")
              Sample.stopped_early (or_intror eq_refl))
    as (_ & _ & S & _ & L & _).
  split; [exact S | exact L].
Defined.

Lemma stop_retains_session_witness :
  captured_frames
    (final_analysis Sample.json_loads Sample.float_literal
       (SendFails "quota exceeded") (stop_and_analyze Sample.recording))
  = [7].
Proof.
  exact (proj1 (proj2 (proj2 (proj2
           (stop_retains_session Sample.json_loads Sample.float_literal
              (SendFails "quota exceeded") Sample.recording
              (or_introl eq_refl)))))).
Defined.

(** * Further properties *)

(** ** What the callbacks leave alone *)

Section Callbacks.

Variable float_literal : string -> bool.

Lemma plot_loop_beyond_map (data : list pyval) :
  forall i vars,
    beyond_map (app (fst (plot_loop float_literal i data vars)))
    = beyond_map (app vars).
Proof.
  induction data as [|item rest IH]; intros i vars; [reflexivity|].
  cbn [plot_loop].
  destruct (item_lat_lon float_literal item) as [[la lo]|e].
  - destruct (first_marker vars); rewrite IH; reflexivity.
  - destruct (handled e); [apply IH | reflexivity].
Qed.

Lemma plot_markers_beyond_map (data : pyval) (a : App) :
  beyond_map (fst (plot_markers_on_map float_literal data a)) = beyond_map a.
Proof.
  unfold plot_markers_on_map. cbv zeta.
  destruct data as [| | | | |l|]; try reflexivity.
  destruct l as [|item rest]; [reflexivity|].
  match goal with |- context [plot_loop float_literal ?j ?l ?v] =>
    generalize (plot_loop_beyond_map l j v);
    destruct (plot_loop float_literal j l v) as [vars [e|]] end;
    cbn [fst]; intros H.
  - exact H.
  - destruct (0 <? plotted_count vars)%nat; cbn [fst]; exact H.
Qed.

(** Only [_finalize_analysis_ui] touches the state, the buttons, the timers,
    the threads or the session; the other callbacks write to the panes. *)
Lemma run_callback_control (cb : callback) (a : App) :
  cb <> finalize_analysis_ui_cb ->
  control_part (run_callback float_literal cb a) = control_part a.
Proof.
  intros H. destruct cb as [|text append tab| | |data| |];
    cbn [run_callback]; try reflexivity.
  - destruct tab, append; reflexivity.
  - exact (f_equal (fun t => fst (fst t)) (plot_markers_beyond_map data a)).
  - contradiction.
Qed.

Lemma run_callback_label (cb : callback) (a : App) :
  cb <> update_frame_count_cb ->
  frame_count_label (ui (run_callback float_literal cb a))
  = frame_count_label (ui a).
Proof.
  intros H. destruct cb as [|text append tab| | |data| |];
    cbn [run_callback]; try reflexivity.
  - contradiction.
  - destruct tab, append; reflexivity.
  - exact (f_equal (fun t => snd (fst t)) (plot_markers_beyond_map data a)).
Qed.

End Callbacks.

(** ** Invariants of every execution *)

Section Invariants.

Variable json_loads : string -> loads_result.
Variable float_literal : string -> bool.

Lemma mainloop_step_cases (a : App) :
  (after_queue a = [] /\ mainloop_step float_literal a = a)
  \/ (exists q,
        after_queue a = finalize_analysis_ui_cb :: q
        /\ mainloop_step float_literal a
           = _finalize_analysis_ui (set_after_queue q a))
  \/ (exists cb q,
        after_queue a = cb :: q /\ cb <> finalize_analysis_ui_cb
        /\ control_part (mainloop_step float_literal a)
           = control_part (set_after_queue q a)
        /\ (cb <> update_frame_count_cb ->
            frame_count_label (ui (mainloop_step float_literal a))
            = frame_count_label (ui a))
        /\ (cb = update_frame_count_cb ->
            mainloop_step float_literal a
            = update_frame_count (set_after_queue q a))).
Proof.
  unfold mainloop_step. destruct (after_queue a) as [|cb q]; [left; auto|].
  right.
  assert (D : cb = finalize_analysis_ui_cb \/ cb <> finalize_analysis_ui_cb)
    by (destruct cb; (left; reflexivity) || (right; discriminate)).
  destruct D as [-> | D]; [left; exists q; auto|].
  right. exists cb, q. split; [reflexivity|]. split; [assumption|].
  split; [apply run_callback_control, D|].
  split; [intros H; now rewrite run_callback_label | now intros ->].
Qed.

Lemma run_invariant (P : App -> Prop) :
  (forall ev a, P a -> P (step json_loads float_literal ev a)) ->
  forall evs a, P a -> P (run json_loads float_literal evs a).
Proof.
  intros Hstep evs. induction evs as [|ev evs IH]; intros a H; [exact H|].
  apply IH, Hstep, H.
Qed.



Lemma step_frames_were_sent (ev : event) (a : App) :
  frames_were_sent a ->
  frames_were_sent (step json_loads float_literal ev a).
Proof.
  unfold frames_were_sent. intros H.
  destruct ev as [| | | |j|cap r|r|]; cbn [step].
  - destruct a as [cs fr st job cnt u q tm nj ns sn th].
    destruct cs; [exact H | intros img []].
  - destruct a as [cs fr st job cnt u q tm nj ns sn th].
    destruct st, job; exact H.
  - destruct a as [cs fr st job cnt u q tm nj ns sn th].
    destruct st, job; exact H.
  - destruct a as [cs fr st job cnt u q tm nj ns sn th].
    destruct st, job; try exact H; intros img [].
  - destruct (existsb (Nat.eqb j) (timers a)); [|exact H].
    destruct a as [cs fr st job cnt u q tm nj ns sn th].
    destruct st; exact H.
  - destruct (take_thread send_frame_thread (threads a)) as [ts|];
      [|exact H].
    unfold send_frame_cycle.
    destruct (send_worker_cases cap r (set_threads ts a))
      as [(E & _) | [(s & _ & _ & _ & E) | [(s & img & e & _ & _ & _ & _ & E)
          | (s & img & reply & _ & _ & _ & _ & E)]]]; rewrite E.
    + exact H.
    + exact H.
    + intros i Hi. destruct (H i Hi) as [s' Hs]. exists s'.
      cbn. apply in_or_app. left. exact Hs.
    + intros i Hi. cbn in Hi. apply in_app_or in Hi.
      destruct Hi as [Hi | [<- | []]].
      * destruct (H i Hi) as [s' Hs]. exists s'.
        cbn. apply in_or_app. left. exact Hs.
      * exists s. cbn. apply in_or_app. right. left. reflexivity.
  - destruct (take_thread final_analysis_thread (threads a)) as [ts|];
      [|exact H].
    rewrite run_thread_posts_only by apply final_worker_posts_only.
    intros i Hi. destruct (H i Hi) as [s' Hs]. exists s'.
    cbn. apply in_or_app. left. exact Hs.
  - destruct (mainloop_step_cases a)
      as [(_ & ->) | [(q & Q & ->) | (cb & q & Q & _ & E & _)]].
    + exact H.
    + exact H.
    + pose proof (f_equal (fun t =>
        match t with (_, f, _, _, _, _, _, _, _, l, _, _) => (f, l) end) E)
        as E'. cbn in E'. injection E' as -> ->. exact H.
Qed.

(** X3: in every execution, each frame of the frame sequence was sent to
    the session client in a turn of its own (the frame prompt and that
    image): no image is kept that the model has not received. *)
Theorem kept_frames_were_sent (evs : list event) (img : image) :
  let a := run json_loads float_literal evs init in
  In img (captured_frames a) ->
  exists s, In (s, [Prompt PROMPT_FOR_FRAME; Image img]) (sent a).
Proof.
  intros a. revert img. change (frames_were_sent a).
  apply run_invariant; [apply step_frames_were_sent | intros img []].
Qed.

End Invariants.

(** ** Executions driven through the buttons *)

Lemma count_final_app (t1 t2 : list thread) :
  count_final (t1 ++ t2)%list = count_final t1 + count_final t2.
Proof.
  induction t1 as [|[] t1 IH]; cbn; [reflexivity | exact IH | now rewrite IH].
Qed.

Lemma count_finalize_app (q1 q2 : list callback) :
  count_finalize (q1 ++ q2)%list = count_finalize q1 + count_finalize q2.
Proof.
  induction q1 as [|cb q1 IH]; [reflexivity|].
  destruct cb; cbn; now rewrite ?IH.
Qed.

Lemma take_send_thread (ts ts' : list thread) :
  take_thread send_frame_thread ts = Some ts' ->
  count_final ts' = count_final ts.
Proof.
  revert ts'; induction ts as [|[] ts IH]; intros ts' H; cbn in H.
  - discriminate H.
  - now injection H as <-.
  - destruct (take_thread send_frame_thread ts) as [r|]; [|discriminate H].
    injection H as <-. cbn. now rewrite (IH r eq_refl).
Qed.

Lemma take_final_thread (ts ts' : list thread) :
  take_thread final_analysis_thread ts = Some ts' ->
  count_final ts = S (count_final ts').
Proof.
  revert ts'; induction ts as [|[] ts IH]; intros ts' H; cbn in H.
  - discriminate H.
  - destruct (take_thread final_analysis_thread ts) as [r|]; [|discriminate H].
    injection H as <-. cbn. now apply IH.
  - now injection H as <-.
Qed.

Lemma remove_single (j : nat) : List.remove Nat.eq_dec j [j] = [].
Proof. cbn. destruct (Nat.eq_dec j j); [reflexivity | contradiction]. Qed.

Lemma count_finalize_posted
    (json_loads : string -> loads_result) (r : send_result) (a : App) :
  count_finalize (posted (_final_analysis_worker json_loads r a)) = 1.
Proof.
  unfold _final_analysis_worker.
  destruct (chat_session a) as [s|]; [|reflexivity].
  destruct (captured_frames a) as [|img frames]; [reflexivity|].
  rewrite !posted_app, !count_finalize_app.
  destruct r as [full_text|e]; [|reflexivity].
  destruct (parse_reply_cases json_loads full_text)
    as [(_ & ->) | [(_ & data & _ & ->)
        | [(_ & e & _ & ->) | (_ & e & _ & ->)]]]; reflexivity.
Qed.

Lemma ui_invariant_control (a b : App) :
  control_part a = control_part b -> ui_invariant a -> ui_invariant b.
Proof.
  unfold control_part. intros E.
  injection E as Ec _ Es Ej _ Eq Et _ _ _ Eth Eb1 Eb2 Eb3 Eb4 _ _.
  unfold ui_invariant, buttons_follow_state, captions_follow_state,
    timer_follows_state, analysis_follows_state.
  now rewrite Ec, Es, Ej, Eq, Et, Eth, Eb1, Eb2, Eb3, Eb4.
Qed.

Section Buttons.

Variable json_loads : string -> loads_result.
Variable float_literal : string -> bool.

Ltac open_app a :=
  destruct a as [cs fr st job cnt
                 [sl fcl at_ csl mk mp mz [e1 c1] [e2 c2] [e3 c3] [e4 c4] w]
                 q tm nj ns sn th].

Ltac open_invariant H :=
  unfold ui_invariant, buttons_follow_state, captions_follow_state,
    timer_follows_state, analysis_follows_state in *;
  cbn in H;
  destruct H as ((B1 & B2 & B3 & B4) & (C1 & C2) & T & A).

Lemma click_invariant (ev : event) (a : App) :
  match ev with
  | start | pause_resume | stop | clear => True
  | _ => False
  end ->
  ui_invariant a ->
  ui_invariant (ui_step json_loads float_literal ev a).
Proof.
  intros Hev H. open_app a. open_invariant H.
  destruct ev; try contradiction; clear Hev;
    unfold ui_step, click; cbn;
    destruct st; cbn in *; subst; cbn.
  all: try (destruct T as (-> & ->)).
  all: try (destruct T as (j & -> & ->)).
  all: try (destruct cs; cbn).
  all: cbn; rewrite ?remove_single; cbn.
  all: try (rewrite count_final_app; cbn).
  all: try (destruct A as [(-> & ->) | (-> & ->)]).
  all: try (destruct A as (-> & ->)).
  all: repeat split; eauto.
  all: match goal with |- context [Nat.eq_dec ?j ?j] =>
         destruct (Nat.eq_dec j j); [reflexivity | contradiction] end.
Qed.

Lemma timer_invariant (j : job_id) (a : App) :
  ui_invariant a ->
  ui_invariant (step json_loads float_literal (timer_fires j) a).
Proof.
  intros H. cbn [step].
  destruct (existsb (Nat.eqb j) (timers a)) eqn:Ex; [|exact H].
  open_app a. open_invariant H.
  destruct st; cbn in *; subst.
  all: try (destruct T as (-> & ->); discriminate Ex).
  destruct T as (j0 & -> & ->). cbn in Ex.
  rewrite Bool.orb_false_r in Ex. apply Nat.eqb_eq in Ex. subst j0.
  cbn. rewrite count_final_app. cbn. destruct A as (-> & ->).
  repeat split; eauto.
  exists nj. destruct (Nat.eq_dec j j); [auto | contradiction].
Qed.

Lemma send_thread_invariant (cap : option image) (r : send_result) (a : App) :
  ui_invariant a ->
  ui_invariant (step json_loads float_literal (send_thread_runs cap r) a).
Proof.
  intros H. cbn [step].
  destruct (take_thread send_frame_thread (threads a)) as [ts|] eqn:Tk;
    [|exact H].
  apply take_send_thread in Tk.
  unfold send_frame_cycle.
  destruct (send_worker_cases cap r (set_threads ts a))
    as [(E & _) | [(s & _ & _ & _ & E) | [(s & img & e & _ & _ & _ & _ & E)
        | (s & img & reply & _ & _ & _ & _ & E)]]]; rewrite E; clear E;
    open_app a; open_invariant H; cbn in *;
    rewrite ?count_finalize_app, Tk; cbn; rewrite ?Nat.add_0_r;
    repeat split; assumption.
Qed.

Lemma final_thread_invariant (r : send_result) (a : App) :
  ui_invariant a ->
  ui_invariant (step json_loads float_literal (final_thread_runs r) a).
Proof.
  intros H. cbn [step].
  destruct (take_thread final_analysis_thread (threads a)) as [ts|] eqn:Tk;
    [|exact H].
  apply take_final_thread in Tk.
  rewrite run_thread_posts_only by apply final_worker_posts_only.
  pose proof (count_finalize_posted json_loads r (set_threads ts a)) as P.
  revert P. generalize (posted (_final_analysis_worker json_loads r
                                  (set_threads ts a))).
  generalize (sends (_final_analysis_worker json_loads r (set_threads ts a))).
  intros sd pq P.
  open_app a. open_invariant H. cbn in *.
  rewrite count_finalize_app, P.
  destruct st; cbn in *;
    try (destruct A as (A1 & A2); rewrite A1 in Tk; discriminate Tk).
  destruct A as [(A1 & A2) | (A1 & A2)]; rewrite A1 in Tk;
    [|discriminate Tk].
  injection Tk as <-. rewrite A2. destruct T as (-> & ->).
  repeat split; auto.
Qed.

Lemma callback_invariant (a : App) :
  ui_invariant a ->
  ui_invariant (step json_loads float_literal callback_runs a).
Proof.
  intros H. cbn [step].
  destruct (mainloop_step_cases float_literal a)
    as [(_ & ->) | [(q' & Q & ->) | (cb & q' & Q & D & E & _)]].
  - exact H.
  - open_app a. open_invariant H. cbn in Q. subst q. cbn in *.
    destruct st; cbn in *;
      try (destruct A as (_ & A2); discriminate A2).
    destruct A as [(_ & A2) | (A1 & A2)]; [discriminate A2|].
    injection A2 as A2. destruct T as (-> & ->).
    repeat split; auto.
  - apply (ui_invariant_control (set_after_queue q' a)); [now symmetry|].
    clear E. destruct cb; try contradiction;
      open_app a; cbn in Q; subst q; open_invariant H; cbn in *;
      repeat split; assumption.
Qed.

Lemma ui_step_invariant (ev : event) (a : App) :
  ui_invariant a -> ui_invariant (ui_step json_loads float_literal ev a).
Proof.
  destruct ev;
    [apply click_invariant; exact I .. | | | |];
    intros H; cbn [ui_step].
  - now apply timer_invariant.
  - now apply send_thread_invariant.
  - now apply final_thread_invariant.
  - now apply callback_invariant.
Qed.

Lemma ui_run_invariant (evs : list event) (a : App) :
  ui_invariant a -> ui_invariant (ui_run json_loads float_literal evs a).
Proof.
  revert a; induction evs as [|ev evs IH]; intros a H; [exact H|].
  apply IH, ui_step_invariant, H.
Qed.

Lemma init_invariant : ui_invariant init.
Proof. repeat split. Qed.

(** X4: in every execution driven through the buttons, the buttons that
    can be pressed are those of the state: Start in IDLE; Pause/Resume and
    Stop in RECORDING and PAUSED; Clear in IDLE when a session exists; none
    in ANALYZING. *)
Theorem buttons_enabled_by_state (evs : list event) :
  buttons_follow_state (ui_run json_loads float_literal evs init).
Proof. apply (ui_run_invariant evs init init_invariant). Qed.

(** X5: in every execution driven through the buttons, the stop button
    reads "Analyzing..." exactly in ANALYZING, and the pause button reads
    "Resume" in PAUSED and "Pause" in IDLE and RECORDING. *)
Theorem captions_by_state (evs : list event) :
  captions_follow_state (ui_run json_loads float_literal evs init).
Proof. apply (ui_run_invariant evs init init_invariant). Qed.

(** X6: in every execution driven through the buttons, exactly one timer
    is armed in RECORDING, the one [frame_sender_job_id] names, and none is
    armed in the other states. *)
Theorem one_timer_while_recording (evs : list event) :
  timer_follows_state (ui_run json_loads float_literal evs init).
Proof. apply (ui_run_invariant evs init init_invariant). Qed.

(** X7: in every execution driven through the buttons, ANALYZING has
    exactly one way back to IDLE pending, either the final-analysis thread
    or the [_finalize_analysis_ui] callback it posted; in the other states
    neither is pending, so no late callback resets a running session. *)
Theorem analysis_has_one_way_back (evs : list event) :
  analysis_follows_state (ui_run json_loads float_literal evs init).
Proof. apply (ui_run_invariant evs init init_invariant). Qed.

Lemma ui_step_warnings (ev : event) (a : App) :
  ui_invariant a -> warnings (ui a) = [] ->
  warnings (ui (ui_step json_loads float_literal ev a)) = [].
Proof.
  intros H W. destruct ev as [| | | |j|cap r|r|]; cbn [ui_step step].
  1-4: open_app a; open_invariant H; unfold click; cbn in *;
       destruct st; cbn in *; subst; cbn;
       try destruct cs; try destruct job; reflexivity.
  - destruct (existsb (Nat.eqb j) (timers a)); [|exact W].
    open_app a. destruct st; exact W.
  - destruct (take_thread send_frame_thread (threads a)) as [ts|];
      [|exact W].
    unfold send_frame_cycle.
    destruct (run_thread_state (_send_frame_worker cap r (set_threads ts a))
                (set_threads ts a)) as (_ & -> & _). exact W.
  - destruct (take_thread final_analysis_thread (threads a)) as [ts|];
      [|exact W].
    destruct (run_thread_state
                (_final_analysis_worker json_loads r (set_threads ts a))
                (set_threads ts a)) as (_ & -> & _). exact W.
  - destruct (mainloop_step_cases float_literal a)
      as [(_ & ->) | [(q' & Q & ->) | (cb & q' & Q & D & E & _)]].
    + exact W.
    + open_app a. exact W.
    + pose proof (f_equal (fun t =>
        match t with
        | (_, _, _, _, _, _, _, _, _, _, _, (_, _, _, _, w, _)) => w
        end) E) as E'.
      cbn in E'. rewrite E'. exact W.
Qed.

(** X8: through the buttons the clear command is never refused: in every
    such execution no warning has been shown, and a click on Clear History
    outside IDLE does nothing at all, the button being disabled. *)
Theorem clear_is_never_refused_through_buttons (evs : list event) :
  let a := ui_run json_loads float_literal evs init in
  warnings (ui a) = []
  /\ (state a <> IDLE -> ui_step json_loads float_literal clear a = a).
Proof.
  cbv zeta. split.
  - assert (H : forall a,
              ui_invariant a -> warnings (ui a) = [] ->
              warnings (ui (ui_run json_loads float_literal evs a)) = []).
    { induction evs as [|ev evs IH]; intros a H W; [exact W|].
      apply IH; [now apply ui_step_invariant | now apply ui_step_warnings]. }
    apply H; [apply init_invariant | reflexivity].
  - intros S.
    destruct (ui_run_invariant evs init init_invariant)
      as ((_ & _ & _ & B4) & _).
    cbn [ui_step]. unfold click. rewrite B4.
    destruct (state (ui_run json_loads float_literal evs init));
      [contradiction | reflexivity ..].
Qed.

End Buttons.

(** ** More on plotting *)

Section PlottingMore.

Variable float_literal : string -> bool.

Lemma float_error (v : pyval) (e : pyexn) :
  float float_literal v = Raise e ->
  handled e = true
  \/ (e = OverflowError
      /\ exists z, v = PyInt z /\ (float_overflow_bound <= Z.abs z)%Z).
Proof.
  destruct v as [|b|z|f|s|l|d]; cbn [float]; intros H;
    try (injection H as <-; left; reflexivity); try discriminate H.
  - destruct (Z.ltb_spec (Z.abs z) float_overflow_bound); [discriminate H|].
    injection H as <-. right. split; [reflexivity|]. exists z. auto.
  - destruct (float_literal s); [discriminate H|].
    injection H as <-. left. reflexivity.
Qed.

Lemma get_error (item : pyval) (key : string) (e : pyexn) :
  get item key = Raise e -> e = AttributeError.
Proof.
  destruct item as [|b|z|f|s|l|d]; cbn [get];
    try (intros [= <-]; reflexivity).
  destruct (dict_lookup key d); discriminate.
Qed.

(** X9: a record stops the plotting loop only through an integer latitude
    or longitude that is too large for a float; every other unreadable
    record (not a dict, a missing or null coordinate, a list, a dict, a
    string that is no number) raises an exception the loop handles. *)
Theorem only_huge_integers_escape (item : pyval) (e : pyexn) :
  item_lat_lon float_literal item = Raise e ->
  handled e = true
  \/ (e = OverflowError
      /\ exists key z,
           (key = "latitude" \/ key = "longitude")
           /\ get item key = Ok (PyInt z)
           /\ (float_overflow_bound <= Z.abs z)%Z).
Proof.
  unfold item_lat_lon. intros H.
  destruct (get item "latitude") as [v|e1] eqn:G1; cbn [bind] in H.
  - destruct (float float_literal v) as [la|e2] eqn:F1; cbn [bind] in H.
    + destruct (get item "longitude") as [w|e3] eqn:G2; cbn [bind] in H.
      * destruct (float float_literal w) as [lo|e4] eqn:F2; cbn [bind] in H;
          [discriminate H|].
        injection H as <-.
        destruct (float_error w e4 F2) as [Hh | (-> & z & -> & Hz)];
          [left; exact Hh|].
        right. split; [reflexivity|]. exists "longitude", z. auto.
      * injection H as <-. rewrite (get_error _ _ _ G2). left. reflexivity.
    + injection H as <-.
      destruct (float_error v e2 F1) as [Hh | (-> & z & -> & Hz)];
        [left; exact Hh|].
      right. split; [reflexivity|]. exists "latitude", z. auto.
  - injection H as <-. rewrite (get_error _ _ _ G1). left. reflexivity.
Qed.

Lemma expected_markers_spec (data : list pyval) :
  forall i m,
    In m (expected_markers float_literal i data)
    <-> exists k item,
          nth_error data k = Some item
          /\ item_lat_lon float_literal item = Ok (lat m, lon m)
          /\ text m = str (i + k + 1).
Proof.
  induction data as [|item rest IH]; intros i m; cbn [expected_markers].
  - split; [intros [] | intros ([|k] & it & H & _); discriminate H].
  - destruct (item_lat_lon float_literal item) as [[la lo]|e] eqn:E.
    + cbn [In]. rewrite IH. split.
      * intros [<- | (k & it & Hk & Hc & Ht)].
        -- exists 0, item. cbn. rewrite Nat.add_0_r. auto.
        -- exists (S k), it. cbn. rewrite Ht. repeat split; auto;
           try (f_equal; lia).
      * intros ([|k] & it & Hk & Hc & Ht); cbn in Hk.
        -- injection Hk as <-. left. destruct m as [la' lo' t'].
           cbn in *. rewrite Nat.add_0_r in Ht. congruence.
        -- right. exists k, it. rewrite Ht. repeat split; auto;
           try (f_equal; lia).
    + rewrite IH. split.
      * intros (k & it & Hk & Hc & Ht). exists (S k), it. cbn.
        rewrite Ht. repeat split; auto; try (f_equal; lia).
      * intros ([|k] & it & Hk & Hc & Ht); cbn in Hk.
        -- injection Hk as <-. congruence.
        -- exists k, it. rewrite Ht. repeat split; auto; try (f_equal; lia).
Qed.

Lemma expected_markers_length (data : list pyval) (i : nat) :
  List.length (expected_markers float_literal i data) <= List.length data.
Proof.
  revert i; induction data as [|item rest IH]; intros i; cbn; [lia|].
  destruct (item_lat_lon float_literal item) as [[la lo]|e]; cbn;
    specialize (IH (S i)); lia.
Qed.

(** X10: when no record raises an unhandled exception, plotting replaces
    the markers of the map: a marker is on the map exactly when it stands
    for a record whose latitude and longitude can be read, at those
    coordinates and labelled with the record's 1-based position in the
    list; unreadable records are skipped and leave gaps in the numbering.
    The coordinate label reports the number of markers, or that no
    coordinates were valid. *)
Theorem plotting_skips_unreadable_records
    (item0 : pyval) (rest : list pyval) (a : App) :
  let data := item0 :: rest in
  all_handled float_literal data ->
  let done := plot_markers_on_map float_literal (PyList data) a in
  let ms := markers (ui (fst done)) in
  snd done = None
  /\ (forall m,
        In m ms
        <-> exists k item,
              nth_error data k = Some item
              /\ item_lat_lon float_literal item = Ok (lat m, lon m)
              /\ text m = str (k + 1))
  /\ List.length ms <= List.length data
  /\ coords_status_label (ui (fst done))
     = match ms with
       | [] => "Parsed JSON, but no valid coordinates to plot."
       | _ => "Plotted " ++ str (List.length ms)
              ++ " potential locations (ranked)."
       end.
Proof.
  intros data H done ms.
  destruct (plot_markers_handled float_literal data a H)
    as (Hn & Hm & Hl & _).
  fold done in Hn, Hm, Hl. subst ms. rewrite Hm.
  split; [exact Hn|]. split; [|split].
  - intros m. apply (expected_markers_spec data 0 m).
  - apply expected_markers_length.
  - rewrite Hl. subst data. reflexivity.
Qed.

Lemma plot_loop_stops (good : list pyval) (bad : pyval) (rest : list pyval)
    (e : pyexn) :
  all_handled float_literal good ->
  item_lat_lon float_literal bad = Raise e -> handled e = false ->
  forall i vars,
    let done := plot_loop float_literal i (good ++ bad :: rest)%list vars in
    snd done = Some e
    /\ markers (ui (app (fst done)))
       = (markers (ui (app vars)) ++ expected_markers float_literal i good)%list
    /\ coords_status_label (ui (app (fst done)))
       = coords_status_label (ui (app vars)).
Proof.
  intros Hg Hb He. induction Hg as [|item good Hitem _ IH]; intros i vars.
  - cbn. rewrite Hb, He. cbn. rewrite app_nil_r. auto.
  - cbn [app plot_loop expected_markers List.app].
    destruct (item_lat_lon float_literal item) as [[la lo]|e'] eqn:E.
    + destruct (first_marker vars);
        match goal with |- context [plot_loop float_literal ?j _ ?v] =>
          destruct (IH j v) as (-> & -> & ->) end;
        cbn; rewrite <- app_assoc; auto.
    + rewrite (Hitem e' eq_refl). apply IH.
Qed.

(** X11: an unhandled exception stops the plotting where it occurs: the
    markers of the records before it stay on the map, the records after it
    are never looked at, and the coordinate label is left as it was. *)
Theorem plotting_stops_at_unhandled_error
    (good : list pyval) (bad : pyval) (rest : list pyval) (e : pyexn)
    (a : App) :
  all_handled float_literal good ->
  item_lat_lon float_literal bad = Raise e -> handled e = false ->
  let done :=
    plot_markers_on_map float_literal (PyList (good ++ bad :: rest)%list) a in
  snd done = Some e
  /\ markers (ui (fst done)) = expected_markers float_literal 0 good
  /\ coords_status_label (ui (fst done)) = coords_status_label (ui a).
Proof.
  intros Hg Hb He done. subst done. unfold plot_markers_on_map. cbv zeta.
  assert (N : exists x l, (good ++ bad :: rest)%list = x :: l)
    by (destruct good; cbn; eauto).
  destruct N as (x & l & N).
  match goal with |- context [plot_loop float_literal ?j _ ?v] =>
    pose proof (plot_loop_stops good bad rest e Hg Hb He j v) as P end.
  cbv zeta in P. rewrite N in *.
  match goal with |- context [plot_loop float_literal ?j ?l ?v] =>
    destruct (plot_loop float_literal j l v) as [vars o] end.
  cbn [fst snd] in *. destruct P as (-> & Hm & Hl). cbn [fst snd].
  auto.
Qed.

End PlottingMore.

(** ** More on the final analysis *)

Section FinalAnalysisMore.

Variable json_loads : string -> loads_result.
Variable float_literal : string -> bool.

Lemma valid_records_handled (recs : list pyval)
    (cs : list (pyfloat * pyfloat)) :
  Forall2 valid_record recs cs ->
  all_handled float_literal recs
  /\ forall i, expected_markers float_literal i recs = ranked_from i cs.
Proof.
  induction 1 as [|item c recs cs Hv _ (IHh & IHm)].
  - split; [constructor | reflexivity].
  - pose proof (valid_record_lat_lon float_literal item c Hv) as E. split.
    + constructor; [|exact IHh]. intros e He. congruence.
    + intros i. cbn. rewrite E. destruct c as [la lo]. now rewrite IHm.
Qed.

(** The application after the final analysis of a reply whose block
    decodes: the plot of the decoded object, then the analysis text, then
    the return to IDLE. *)
Lemma decoded_block_outcome
    (pre span post : string) (data : pyval) (a : App) (s : session_id) :
  let full_text :=
    pre ++ json_start_marker ++ span ++ json_end_marker ++ post in
  chat_session a = Some s -> captured_frames a <> [] ->
  first_at json_start_marker full_text (String.length pre) ->
  first_at json_end_marker full_text
    (String.length pre + String.length json_start_marker
     + String.length span) ->
  json_loads (strip span) = Loaded data ->
  exists b,
    final_analysis json_loads float_literal (Reply full_text) a
    = _finalize_analysis_ui
        (update_results (strip pre) false analysis
           (fst (plot_markers_on_map float_literal data b))).
Proof.
  intros full_text C Fr Hs He L.
  rewrite final_analysis_unfold, (worker_posts_on_reply _ _ _ _ C Fr).
  destruct (markers_located pre span post Hs He) as (Hlt & Epre & Espan).
  fold full_text in Hlt, Epre, Espan.
  destruct (parse_reply_cases json_loads full_text)
    as [(Hno & _) | [(_ & data' & L' & ->)
        | [(_ & e & L' & _) | (_ & e & L' & _)]]].
  - exfalso. lia.
  - rewrite Espan in L'. rewrite Epre.
    assert (data' = data) as -> by congruence.
    eexists. reflexivity.
  - rewrite Espan in L'. congruence.
  - rewrite Espan in L'. congruence.
Qed.

(** X12: when the block decodes to a non-empty list of valid records, the
    coordinate label reports their number, and the map is centred on the
    first record at zoom level 10. *)
Theorem map_centred_on_first_candidate
    (pre span post : string) (rec0 : pyval) (recs : list pyval)
    (c0 : pyfloat * pyfloat) (cs : list (pyfloat * pyfloat))
    (a : App) (s : session_id) :
  let full_text :=
    pre ++ json_start_marker ++ span ++ json_end_marker ++ post in
  chat_session a = Some s -> captured_frames a <> [] ->
  first_at json_start_marker full_text (String.length pre) ->
  first_at json_end_marker full_text
    (String.length pre + String.length json_start_marker
     + String.length span) ->
  json_loads (strip span) = Loaded (PyList (rec0 :: recs)) ->
  Forall2 valid_record (rec0 :: recs) (c0 :: cs) ->
  let a' := final_analysis json_loads float_literal (Reply full_text) a in
  coords_status_label (ui a')
  = "Plotted " ++ str (List.length (rec0 :: recs))
    ++ " potential locations (ranked)."
  /\ map_position (ui a') = c0
  /\ map_zoom (ui a') = 10.
Proof.
  intros full_text C Fr Hs He L V a'. subst a' full_text.
  destruct (decoded_block_outcome pre span post _ a s C Fr Hs He L)
    as (b & ->).
  destruct (valid_records_handled _ _ V) as (Hh & Hm).
  destruct (plot_markers_handled float_literal (rec0 :: recs) b Hh)
    as (_ & _ & Hl & Hp).
  rewrite (Hm 0) in Hl, Hp. cbn [ranked_from] in Hl, Hp.
  destruct c0 as [la lo]. cbn [lat lon List.length] in Hl, Hp.
  pose proof (Forall2_length V) as Len. cbn in Len. injection Len as Len.
  rewrite ranked_from_length, <- Len in Hl.
  destruct Hp as (Hp & Hz).
  split; [exact Hl|]. split; [exact Hp | exact Hz].
Qed.

(** X13: when the block decodes to something that is not a non-empty list
    (an empty list, a dict, a string, a number, true, false, null), no
    marker is plotted, the coordinate label says that the data is empty or
    not a list, and the analysis text is still the text before the start
    marker. *)
Theorem decoded_block_without_records
    (pre span post : string) (data : pyval) (a : App) (s : session_id) :
  let full_text :=
    pre ++ json_start_marker ++ span ++ json_end_marker ++ post in
  chat_session a = Some s -> captured_frames a <> [] ->
  first_at json_start_marker full_text (String.length pre) ->
  first_at json_end_marker full_text
    (String.length pre + String.length json_start_marker
     + String.length span) ->
  json_loads (strip span) = Loaded data ->
  (forall item rest, data <> PyList (item :: rest)) ->
  let a' := final_analysis json_loads float_literal (Reply full_text) a in
  markers (ui a') = []
  /\ coords_status_label (ui a')
     = "Parsed JSON coordinate data is empty or not a list."
  /\ analysis_text (ui a') = strip pre ++ nl
  /\ state a' = IDLE.
Proof.
  intros full_text C Fr Hs He L N a'. subst a' full_text.
  destruct (decoded_block_outcome pre span post _ a s C Fr Hs He L)
    as (b & ->).
  destruct data as [| | | | |[|item rest]|]; try (repeat split; fail).
  destruct (N item rest eq_refl).
Qed.

Lemma parse_reply_sends_nothing (full_text : string) :
  sends (parse_reply json_loads full_text) = [].
Proof.
  destruct (parse_reply_cases json_loads full_text)
    as [(_ & ->) | [(_ & data & _ & ->)
        | [(_ & e & _ & ->) | (_ & e & _ & ->)]]]; reflexivity.
Qed.


(** X15: when the final send fails, the error is appended to the analysis
    text after the sending notice (what the pane showed before stays), the
    map has no marker, and the session is kept: state IDLE, same handle,
    same frames. *)
Theorem analysis_failure_is_appended (e : string) (a : App) (s : session_id) :
  chat_session a = Some s -> captured_frames a <> [] -> after_queue a = [] ->
  let a' := final_analysis json_loads float_literal (SendFails e) a in
  analysis_text (ui a')
  = (analysis_text (ui a)
     ++ (nl ++ "Sending " ++ str (List.length (captured_frames a))
         ++ " captured frames and requesting final analysis...") ++ nl)
    ++ (nl ++ "--- ANALYSIS ERROR ---" ++ nl ++ e) ++ nl
  /\ markers (ui a') = []
  /\ state a' = IDLE
  /\ chat_session a' = Some s
  /\ captured_frames a' = captured_frames a.
Proof.
  intros C Fr Q a'. subst a'. rewrite final_analysis_unfold.
  unfold reached, _final_analysis_worker. rewrite C, Q.
  destruct (captured_frames a) as [|img frames] eqn:F; [contradiction|].
  destruct a as [cs fr st job cnt u q tm nj ns sn th].
  cbn in C, F. subst cs fr. repeat split.
Qed.

End FinalAnalysisMore.

(** ** How the commands compose *)

Lemma start_session_resumes (a : App) (s : session_id) :
  chat_session a = Some s ->
  state (start_session a) = RECORDING
  /\ chat_session (start_session a) = Some s
  /\ captured_frames (start_session a) = captured_frames a
  /\ frame_count (start_session a) = frame_count a
  /\ analysis_text (ui (start_session a)) = "Resuming session..." ++ nl.
Proof.
  destruct a as [cs fr st job cnt u q tm nj ns sn th]. cbn. intros ->.
  repeat split.
Qed.

(** X16: pausing a recording cancels its timer, and resuming arms a new
    one; across the two commands the session handle, the frames, the
    counter and the log of sends stay as they were. *)
Theorem pause_then_resume (a : App) (j : job_id) :
  state a = RECORDING -> frame_sender_job_id a = Some j ->
  let p := toggle_pause_resume a in
  let b := toggle_pause_resume p in
  state p = PAUSED
  /\ frame_sender_job_id p = None /\ ~ In j (timers p)
  /\ state b = RECORDING
  /\ frame_sender_job_id b = Some (next_job a) /\ In (next_job a) (timers b)
  /\ session_part b = session_part a.
Proof.
  destruct a as [cs fr st job cnt u q tm nj ns sn th]. cbn.
  intros -> ->. cbn.
  repeat split; [apply remove_In | apply in_or_app; right; left; reflexivity].
Qed.

Section Composition.

Variable json_loads : string -> loads_result.
Variable float_literal : string -> bool.

(** X17: starting again after a stop and its final analysis resumes the
    same session: same handle, same frames, same counter, state RECORDING;
    the analysis text is replaced by the resuming notice. *)
Theorem start_after_analysis_resumes
    (r : send_result) (a : App) (s : session_id) :
  state a = RECORDING \/ state a = PAUSED -> chat_session a = Some s ->
  let b :=
    start_session
      (final_analysis json_loads float_literal r (stop_and_analyze a)) in
  state b = RECORDING
  /\ chat_session b = Some s
  /\ captured_frames b = captured_frames a
  /\ frame_count b = frame_count a
  /\ analysis_text (ui b) = "Resuming session..." ++ nl.
Proof.
  intros H C b. subst b.
  destruct (stop_and_analyze_session a H) as (_ & C1 & F1).
  destruct (final_analysis_completes json_loads float_literal r
              (stop_and_analyze a)) as (_ & C2 & F2 & N2).
  assert (N1 : frame_count (stop_and_analyze a) = frame_count a).
  { unfold stop_and_analyze, cancel_frame_sender.
    destruct a as [cs fr st job cnt u q tm nj ns sn th].
    cbn in H. destruct H as [-> | ->]; destruct job; reflexivity. }
  destruct (start_session_resumes
              (final_analysis json_loads float_literal r (stop_and_analyze a))
              s) as (S3 & C3 & F3 & N3 & T3); [congruence|].
  repeat split; congruence.
Qed.

End Composition.

(** ** A cleared history starts a new conversation *)

Section Fresh.

Variable json_loads : string -> loads_result.
Variable float_literal : string -> bool.

Lemma final_sends_to_session (r : send_result) (a : App)
    (s : session_id) (parts : list part) :
  In (s, parts) (sends (_final_analysis_worker json_loads r a)) ->
  chat_session a = Some s.
Proof.
  unfold _final_analysis_worker.
  destruct (chat_session a) as [s'|]; [|intros []].
  destruct (captured_frames a) as [|img frames]; [intros []|].
  cbn [sends List.app]. rewrite sends_app.
  assert (E : sends (match r with
                     | Reply full_text => parse_reply json_loads full_text
                     | SendFails e => on_exception e
                     end) = [])
    by (destruct r; [apply parse_reply_sends_nothing | reflexivity]).
  rewrite E. cbn. intros [[= <- _] | []]. reflexivity.
Qed.

Lemma step_sessions_are_known (ev : event) (a : App) :
  sessions_are_known a ->
  sessions_are_known (step json_loads float_literal ev a).
Proof.
  unfold sessions_are_known. intros (H1 & H2).
  destruct ev as [| | | |j|cap r|r|]; cbn [step].
  - destruct a as [cs fr st job cnt u q tm nj ns sn th]. cbn in *.
    destruct cs as [s0|]; cbn.
    + split; [exact H1 | exact H2].
    + split; [intros s [= <-]; lia|].
      intros s parts Hin. specialize (H2 s parts Hin). lia.
  - destruct a as [cs fr st job cnt u q tm nj ns sn th].
    destruct st, job; split; assumption.
  - destruct a as [cs fr st job cnt u q tm nj ns sn th].
    destruct st, job; split; assumption.
  - destruct a as [cs fr st job cnt u q tm nj ns sn th].
    destruct st, job; cbn in *; split; try assumption; intros; discriminate.
  - destruct (existsb (Nat.eqb j) (timers a)); [|split; assumption].
    destruct a as [cs fr st job cnt u q tm nj ns sn th].
    destruct st; split; assumption.
  - destruct (take_thread send_frame_thread (threads a)) as [ts|];
      [|split; assumption].
    unfold send_frame_cycle.
    destruct (send_worker_cases cap r (set_threads ts a))
      as [(E & _) | [(s & C & _ & _ & E) | [(s & img & e & C & _ & _ & _ & E)
          | (s & img & reply & C & _ & _ & _ & E)]]]; rewrite E;
      destruct a as [cs fr st job cnt u q tm nj ns sn th]; cbn in *;
      try (split; assumption);
      (split; [assumption|]; intros s' parts Hin;
       apply in_app_or in Hin; destruct Hin as [Hin | [[= <- _] | []]];
       [eapply H2; eassumption | apply H1; assumption]).
  - destruct (take_thread final_analysis_thread (threads a)) as [ts|];
      [|split; assumption].
    rewrite run_thread_posts_only by apply final_worker_posts_only.
    pose proof (final_sends_to_session r (set_threads ts a)) as Hs.
    revert Hs.
    generalize (sends (_final_analysis_worker json_loads r (set_threads ts a))).
    generalize (posted (_final_analysis_worker json_loads r (set_threads ts a))).
    intros pq sd Hs.
    destruct a as [cs fr st job cnt u q tm nj ns sn th]; cbn in *.
    split; [assumption|]. intros s parts Hin.
    apply in_app_or in Hin. destruct Hin as [Hin | Hin].
    + eapply H2; eassumption.
    + apply H1. eapply Hs; eassumption.
  - destruct (mainloop_step_cases float_literal a)
      as [(_ & ->) | [(q' & Q & ->) | (cb & q' & Q & D & E & _)]].
    + split; assumption.
    + destruct a as [cs fr st job cnt u q tm nj ns sn th].
      split; assumption.
    + pose proof (f_equal (fun t =>
        match t with (c, _, _, _, _, _, _, _, n, l, _, _) => (c, n, l) end) E)
        as E'. cbn in E'. injection E' as -> -> ->. split; assumption.
Qed.

(** X18: in every execution, clearing the history (in IDLE or ANALYZING)
    and starting again gives a session that is new: its handle is not the
    one cleared, no turn of the log was sent to it, and it begins
    recording with no frame and a counter of 0. *)
Theorem clear_then_start_is_fresh (evs : list event) :
  let a := run json_loads float_literal evs init in
  let b := start_session (clear_history a) in
  state a = IDLE \/ state a = ANALYZING ->
  state b = RECORDING
  /\ captured_frames b = []
  /\ frame_count b = 0
  /\ sent b = sent a
  /\ exists s,
       chat_session b = Some s
       /\ chat_session a <> Some s
       /\ forall parts, ~ In (s, parts) (sent b).
Proof.
  intros a b H.
  assert (K : sessions_are_known a).
  { apply run_invariant; [apply step_sessions_are_known|].
    split; [intros s [=] | intros s parts []]. }
  subst b. revert H K. generalize a. clear a.
  intros a H (K1 & K2).
  destruct a as [cs fr st job cnt u q tm nj ns sn th]. cbn in *.
  assert (E : st = IDLE \/ st = ANALYZING) by exact H. clear H.
  destruct E as [-> | ->]; destruct job; cbn;
    (repeat split; exists ns; split; [reflexivity|]; split;
     [intros C; specialize (K1 ns C); lia
     | intros parts Hin; specialize (K2 ns parts Hin); lia]).
Qed.

End Fresh.

(** ** The further properties on the samples *)


Lemma kept_frames_were_sent_witness :
  exists s,
    In (s, [Prompt PROMPT_FOR_FRAME; Image 7]) (sent Sample.recording).
Proof.
  apply (kept_frames_were_sent Sample.json_loads Sample.float_literal
           [start; timer_fires 0;
            send_thread_runs (Some 7) (Reply "A street sign.")] 7).
  vm_compute. tauto.
Defined.

Lemma clear_is_never_refused_through_buttons_witness :
  ui_step Sample.json_loads Sample.float_literal clear
    (ui_run Sample.json_loads Sample.float_literal [start; stop] init)
  = ui_run Sample.json_loads Sample.float_literal [start; stop] init.
Proof.
  apply (proj2 (clear_is_never_refused_through_buttons
                  Sample.json_loads Sample.float_literal [start; stop])).
  vm_compute. discriminate.
Defined.

Lemma only_huge_integers_escape_witness :
  handled OverflowError = true
  \/ (OverflowError = OverflowError
      /\ exists key z,
           (key = "latitude" \/ key = "longitude")
           /\ get MoreSamples.huge key = Ok (PyInt z)
           /\ (float_overflow_bound <= Z.abs z)%Z).
Proof.
  apply (only_huge_integers_escape Sample.float_literal MoreSamples.huge).
  vm_compute. reflexivity.
Defined.

Lemma bad_then_good_handled :
  all_handled Sample.float_literal MoreSamples.bad_then_good.
Proof.
  repeat constructor; intros e H; vm_compute in H;
    [injection H as <-; reflexivity | discriminate H].
Qed.

Lemma plotting_skips_unreadable_records_witness :
  snd (plot_markers_on_map Sample.float_literal
         (PyList MoreSamples.bad_then_good) Sample.analyzing) = None
  /\ coords_status_label
       (ui (fst (plot_markers_on_map Sample.float_literal
                   (PyList MoreSamples.bad_then_good) Sample.analyzing)))
     = "Plotted 1 potential locations (ranked).".
Proof.
  destruct (plotting_skips_unreadable_records Sample.float_literal
              (Sample.dict (PyStr "north") (PyFloat (snd Sample.paris)))
              [Sample.place Sample.london] Sample.analyzing
              bad_then_good_handled)
    as (N & _ & _ & L).
  split; [exact N | exact L].
Defined.

Lemma plotting_stops_at_unhandled_error_witness :
  markers
    (ui (fst (plot_markers_on_map Sample.float_literal
                (PyList (MoreSamples.bad_then_good
                         ++ MoreSamples.huge :: [Sample.place Sample.paris]))
                Sample.analyzing)))
  = [{| lat := fst Sample.london; lon := snd Sample.london; text := "2" |}].
Proof.
  refine (proj1 (proj2
            (plotting_stops_at_unhandled_error Sample.float_literal
               MoreSamples.bad_then_good MoreSamples.huge
               [Sample.place Sample.paris] OverflowError Sample.analyzing
               bad_then_good_handled _ eq_refl))).
  vm_compute. reflexivity.
Defined.

Lemma two_valid_records :
  Forall2 valid_record
    [Sample.place Sample.paris; Sample.place Sample.london]
    [Sample.paris; Sample.london].
Proof.
  repeat constructor;
    (eexists _, _, _; split; [reflexivity|];
     split; [reflexivity|]; split; [constructor|];
     split; [reflexivity | constructor]).
Qed.

Lemma map_centred_on_first_candidate_witness :
  map_position (ui (Sample.analysis Sample.two_records)) = Sample.paris
  /\ map_zoom (ui (Sample.analysis Sample.two_records)) = 10.
Proof.
  destruct (map_centred_on_first_candidate
              Sample.json_loads Sample.float_literal
              (Sample.free_text ++ nl) (nl ++ Sample.two_records ++ nl) ""
              (Sample.place Sample.paris) [Sample.place Sample.london]
              Sample.paris [Sample.london] Sample.analyzing 0
              eq_refl
              ltac:(discriminate)
              ltac:(apply PyStrFacts.find_first; reflexivity)
              ltac:(apply PyStrFacts.find_first; reflexivity)
              eq_refl two_valid_records)
    as (_ & P & Z).
  split; [exact P | exact Z].
Defined.

Lemma decoded_block_without_records_witness :
  coords_status_label
    (ui (final_analysis MoreSamples.json_loads Sample.float_literal
           (Reply (Sample.reply_with "[]")) Sample.analyzing))
  = "Parsed JSON coordinate data is empty or not a list.".
Proof.
  refine (proj1 (proj2
            (decoded_block_without_records
               MoreSamples.json_loads Sample.float_literal
               (Sample.free_text ++ nl) (nl ++ "[]" ++ nl) ""
               (PyList []) Sample.analyzing 0
               eq_refl
               ltac:(discriminate)
               ltac:(apply PyStrFacts.find_first; reflexivity)
               ltac:(apply PyStrFacts.find_first; reflexivity)
               eq_refl _))).
  intros item rest. discriminate.
Defined.


Lemma analysis_failure_is_appended_witness :
  state (final_analysis Sample.json_loads Sample.float_literal
           (SendFails "quota exceeded") MoreSamples.stopped_quiet) = IDLE
  /\ captured_frames
       (final_analysis Sample.json_loads Sample.float_literal
          (SendFails "quota exceeded") MoreSamples.stopped_quiet) = [7].
Proof.
  destruct (analysis_failure_is_appended
              Sample.json_loads Sample.float_literal "quota exceeded"
              MoreSamples.stopped_quiet 0
              eq_refl ltac:(discriminate) eq_refl)
    as (_ & _ & S & _ & F).
  split; [exact S | exact F].
Defined.

Lemma pause_then_resume_witness :
  state (toggle_pause_resume (toggle_pause_resume Sample.recording))
  = RECORDING
  /\ frame_sender_job_id
       (toggle_pause_resume (toggle_pause_resume Sample.recording)) = Some 2.
Proof.
  destruct (pause_then_resume Sample.recording 1 eq_refl eq_refl)
    as (_ & _ & _ & S & J & _).
  split; [exact S | exact J].
Defined.

Lemma start_after_analysis_resumes_witness :
  captured_frames
    (start_session
       (final_analysis Sample.json_loads Sample.float_literal
          (Reply (Sample.reply_with Sample.two_records))
          (stop_and_analyze Sample.recording)))
  = [7].
Proof.
  exact (proj1 (proj2 (proj2
           (start_after_analysis_resumes
              Sample.json_loads Sample.float_literal
              (Reply (Sample.reply_with Sample.two_records))
              Sample.recording 0 (or_introl eq_refl) eq_refl)))).
Defined.

Lemma clear_then_start_is_fresh_witness :
  exists s,
    chat_session (start_session (clear_history Sample.stopped_early)) = Some s
    /\ chat_session Sample.stopped_early <> Some s
    /\ forall parts,
         ~ In (s, parts)
             (sent (start_session (clear_history Sample.stopped_early))).
Proof.
  exact (proj2 (proj2 (proj2 (proj2
           (clear_then_start_is_fresh Sample.json_loads Sample.float_literal
              [start; stop] (or_intror eq_refl)))))).
Defined.


(** * Threads followed statement by statement *)






Lemma land_cases (act : action) (a a' : App) :
  land act a = Some a' ->
  state a' = state a /\ chat_session a' = chat_session a
  /\ ((writes_shared act = false
       /\ captured_frames a' = captured_frames a
       /\ frame_count a' = frame_count a)
      \/ (exists img, act = append_frame img
            /\ captured_frames a' = (captured_frames a ++ [img])%list
            /\ frame_count a' = frame_count a)
      \/ (act = incr_frame_count
          /\ captured_frames a' = captured_frames a
          /\ frame_count a' = frame_count a + 1)).
Proof.
  destruct act as [n|s parts|img| |cb]; cbn [land].
  - intros [= <-]. repeat split. left. repeat split.
  - destruct (chat_session a) as [s'|] eqn:C; [|discriminate].
    intros [= <-]. cbn. repeat split; [now symmetry|]. left. repeat split.
  - intros [= <-]. repeat split. right. left. exists img. repeat split.
  - intros [= <-]. repeat split. right. right. repeat split.
  - intros [= <-]. repeat split. left. repeat split.
Qed.

Lemma put_last {A : Type} (x y : A) (l : list A) :
  put (List.length l) x (l ++ [y]) = (l ++ [x])%list.
Proof. induction l as [|z l IH]; cbn; [reflexivity | now rewrite IH]. Qed.

Lemma nth_error_last {A : Type} (y : A) (l : list A) :
  nth_error (l ++ [y]) (List.length l) = Some y.
Proof. induction l as [|z l IH]; cbn; [reflexivity | exact IH]. Qed.

Section Interleavings.

Variable json_loads : string -> loads_result.
Variable float_literal : string -> bool.





Lemma step_session_outside_idle (ev : event) (a : App) :
  session_outside_idle a ->
  session_outside_idle (step json_loads float_literal ev a).
Proof.
  unfold session_outside_idle. intros H1.
  destruct ev as [| | | |j|cap r|r|]; cbn [step].
  - unfold start_session. destruct (chat_session a) eqn:C; cbn;
      rewrite ?C; intros; discriminate.
  - unfold toggle_pause_resume, cancel_frame_sender.
    destruct (state a) eqn:S; cbn;
      try destruct (frame_sender_job_id a); cbn;
      intros N; apply H1; congruence.
  - unfold stop_and_analyze, cancel_frame_sender.
    destruct (state a) eqn:S; cbn;
      try destruct (frame_sender_job_id a); cbn;
      intros N; apply H1; congruence.
  - unfold clear_history, cancel_frame_sender.
    destruct (state a) eqn:S; cbn; rewrite ?S; try assumption;
      destruct (frame_sender_job_id a); cbn; auto.
  - destruct (existsb (Nat.eqb j) (timers a)); [|assumption].
    unfold send_frame_task, schedule_next_frame.
    change (state (after_cancel j a)) with (state a).
    destruct (state a) eqn:S; cbn; rewrite ?S;
      intros N; apply H1; congruence.
  - destruct (take_thread send_frame_thread (threads a)) as [ts|];
      [|assumption].
    destruct (run_thread_state
                (_send_frame_worker cap r (set_threads ts a))
                (set_threads ts a)) as (Es & _ & Ec).
    fold (send_frame_cycle cap r (set_threads ts a)) in Es, Ec.
    rewrite Es, Ec. exact H1.
  - destruct (take_thread final_analysis_thread (threads a)) as [ts|];
      [|assumption].
    rewrite run_thread_posts_only by apply final_worker_posts_only.
    assumption.
  - destruct (mainloop_step_cases float_literal a)
      as [(_ & ->) | [(q & _ & ->) | (cb & q & _ & _ & E & _)]].
    + assumption.
    + cbn. intros H; now destruct H.
    + unfold control_part in E. cbn in E.
      injection E as Ec Ef Es _ En _. rewrite Ec, Es. assumption.
Qed.

Lemma fine_step_session_outside_idle (mo : moment) (m : machine) :
  session_outside_idle (shared m) ->
  session_outside_idle (shared (fine_step json_loads float_literal mo m)).
Proof.
  intros H. destruct mo as [ev|cap r|i]; cbn [fine_step].
  - apply step_session_outside_idle, H.
  - destruct (take_thread send_frame_thread (threads (shared m)));
      exact H.
  - destruct (nth_error (in_flight m) i) as [[|act rest]|]; try exact H.
    destruct (land act (shared m)) as [a'|] eqn:L; [|exact H].
    destruct (land_cases _ _ _ L) as (Es & Ec & _).
    unfold session_outside_idle. cbn [shared]. rewrite Es, Ec. exact H.
Qed.

(** X1: a session handle exists whenever the state is not IDLE, after
    every operation of every execution that starts when the application
    has been built, with the capture-and-send threads followed statement
    by statement, whatever runs between two of their statements. *)
Theorem session_exists_outside_idle (ms : list moment) :
  session_outside_idle
    (shared (fine_run json_loads float_literal ms (at_rest init))).
Proof.
  assert (G : forall m, session_outside_idle (shared m) ->
              session_outside_idle
                (shared (fine_run json_loads float_literal ms m))).
  { induction ms as [|mo ms IH]; intros m H; [exact H|].
    apply IH, fine_step_session_outside_idle, H. }
  apply G. intros H. now destruct H.
Qed.

(** The next statement of the thread that was entered last. *)
Lemma advance_last (fl : list (list action)) (act : action)
    (rest : list action) (a a' : App) :
  land act a = Some a' ->
  fine_step json_loads float_literal (worker_advances (List.length fl))
    {| shared := a; in_flight := (fl ++ [act :: rest])%list |}
  = {| shared := a'; in_flight := (fl ++ [rest])%list |}.
Proof.
  intros L. cbn [fine_step shared in_flight].
  now rewrite nth_error_last, L, put_last.
Qed.

Lemma advance_ended (fl : list (list action)) (a : App) (n : nat) :
  fine_run json_loads float_literal
    (repeat (worker_advances (List.length fl)) n)
    {| shared := a; in_flight := (fl ++ [[]])%list |}
  = {| shared := a; in_flight := (fl ++ [[]])%list |}.
Proof.
  induction n as [|n IH]; [reflexivity|].
  cbn [repeat fine_run fold_left fine_step shared in_flight].
  rewrite nth_error_last. exact IH.
Qed.

Lemma fine_run_cons (mo : moment) (ms : list moment) (m : machine) :
  fine_run json_loads float_literal (mo :: ms) m
  = fine_run json_loads float_literal ms
      (fine_step json_loads float_literal mo m).
Proof. reflexivity. Qed.

(** An event [send_thread_runs] of [step] is the execution in which the
    thread is entered and runs its statements, five at most, with nothing
    in between. *)
Lemma uninterrupted_cycle (cap : option image) (r : send_result)
    (m : machine) :
  shared (fine_run json_loads float_literal
            (worker_enters cap r
             :: repeat (worker_advances (List.length (in_flight m))) 5) m)
  = step json_loads float_literal (send_thread_runs cap r) (shared m).
Proof.
  destruct m as [a fl]. cbn [shared in_flight].
  rewrite fine_run_cons. cbn [fine_step step shared in_flight].
  destruct (take_thread send_frame_thread (threads a)) as [ts|].
  - unfold send_frame_cycle. set (b := set_threads ts a).
    destruct (send_worker_cases cap r b)
      as [(-> & _) | [(s & C & _ & _ & ->)
          | [(s & img & e & C & _ & _ & _ & ->)
          | (s & img & reply & C & _ & _ & _ & ->)]]].
    + now rewrite (advance_ended fl b 5).
    + cbn [repeat]. rewrite fine_run_cons.
      erewrite (advance_last fl) by reflexivity.
      now rewrite (advance_ended fl _ 4).
    + assert (L : land (send_message s [Prompt PROMPT_FOR_FRAME; Image img])
                    (perform (capture_screen_to_image monitor_to_capture) b)
                  = Some (perform
                            (send_message s [Prompt PROMPT_FOR_FRAME; Image img])
                            (perform (capture_screen_to_image
                                        monitor_to_capture) b)))
        by (cbn [land perform]; now rewrite C).
      cbn [repeat]. rewrite fine_run_cons.
      erewrite (advance_last fl) by reflexivity. rewrite fine_run_cons.
      erewrite (advance_last fl) by exact L.
      now rewrite (advance_ended fl _ 3).
    + assert (L : land (send_message s [Prompt PROMPT_FOR_FRAME; Image img])
                    (perform (capture_screen_to_image monitor_to_capture) b)
                  = Some (perform
                            (send_message s [Prompt PROMPT_FOR_FRAME; Image img])
                            (perform (capture_screen_to_image
                                        monitor_to_capture) b)))
        by (cbn [land perform]; now rewrite C).
      cbn [repeat]. rewrite fine_run_cons.
      erewrite (advance_last fl) by reflexivity. rewrite fine_run_cons.
      erewrite (advance_last fl) by exact L. rewrite fine_run_cons.
      erewrite (advance_last fl) by reflexivity. rewrite fine_run_cons.
      erewrite (advance_last fl) by reflexivity. rewrite fine_run_cons.
      erewrite (advance_last fl) by reflexivity.
      reflexivity.
  - assert (E : forall n,
               fine_run json_loads float_literal
                 (repeat (worker_advances (List.length fl)) n)
                 {| shared := a; in_flight := fl |}
               = {| shared := a; in_flight := fl |}).
    { induction n as [|n IH]; [reflexivity|].
      cbn [repeat]. rewrite fine_run_cons.
      cbn [fine_step shared in_flight].
      replace (nth_error fl (List.length fl)) with (@None (list action))
        by (symmetry; apply nth_error_None; lia).
      exact IH. }
    now rewrite E.
Qed.

End Interleavings.

Section DecoderErrors.

Variable json_loads : string -> loads_result.
Variable float_literal : string -> bool.

(** C6: when the markers are there in order and [json.loads] raises, on
    the block between them, an exception that is no [JSONDecodeError], the
    handler of line 447 is passed over: the map has no marker, but the
    coordinate label still reads that the analysis is awaited, with no
    error report and no block, and the analysis text is what it was,
    followed by the sending notice and the error of the outer handler; the
    text before the start marker is not shown. *)
Theorem decoder_error_escapes_handler
    (pre span post e : string) (a : App) (s : session_id) :
  let full_text :=
    pre ++ json_start_marker ++ span ++ json_end_marker ++ post in
  chat_session a = Some s -> captured_frames a <> [] -> after_queue a = [] ->
  first_at json_start_marker full_text (String.length pre) ->
  first_at json_end_marker full_text
    (String.length pre + String.length json_start_marker
     + String.length span) ->
  json_loads (strip span) = LoadsRaises e ->
  let a' := final_analysis json_loads float_literal (Reply full_text) a in
  markers (ui a') = []
  /\ coords_status_label (ui a') = "Waiting for analysis..."
  /\ analysis_text (ui a')
     = (analysis_text (ui a)
        ++ (nl ++ "Sending " ++ str (List.length (captured_frames a))
            ++ " captured frames and requesting final analysis...") ++ nl)
       ++ (nl ++ "--- ANALYSIS ERROR ---" ++ nl ++ e) ++ nl
  /\ state a' = IDLE.
Proof.
  intros full_text C Fr Q Hs He L a'. subst a'.
  rewrite final_analysis_unfold.
  destruct (markers_located pre span post Hs He) as (Hlt & Epre & Espan).
  fold full_text in Hlt, Epre, Espan.
  assert (P : parse_reply json_loads full_text = on_exception e).
  { destruct (parse_reply_cases json_loads full_text)
      as [(Hno & _) | [(_ & data & L' & _)
          | [(_ & e' & L' & _) | (_ & e' & L' & ->)]]];
      [exfalso; lia | rewrite Espan in L'; congruence
       | rewrite Espan in L'; congruence |].
    rewrite Espan in L'. congruence. }
  unfold reached, _final_analysis_worker. rewrite C, Q, P.
  destruct (captured_frames a) as [|img frames] eqn:F; [contradiction|].
  destruct a as [cs fr st job cnt u q tm nj ns sn th].
  cbn in C, F. subst cs fr. repeat split.
Qed.

End DecoderErrors.

(** ** The statement-level executions on the samples *)


(** A frame can outlive its session: the thread of
    [MoreSamples.late_reply] appends and counts its frame after the clear,
    so the application holds one frame, counted, and no session handle. *)
Lemma late_frame_outlives_session :
  let m := fine_run Sample.json_loads Sample.float_literal
             MoreSamples.late_reply (at_rest init) in
  chat_session (shared m) = None
  /\ state (shared m) = IDLE
  /\ captured_frames (shared m) = [8]
  /\ frame_count (shared m) = 1.
Proof. vm_compute. repeat split. Qed.


Lemma decoder_error_escapes_handler_witness :
  let a' := final_analysis Sample.json_loads Sample.float_literal
              (Reply (Sample.reply_with Sample.long_integer))
              MoreSamples.stopped_quiet in
  markers (ui a') = []
  /\ coords_status_label (ui a') = "Waiting for analysis..."
  /\ state a' = IDLE.
Proof.
  destruct (decoder_error_escapes_handler
              Sample.json_loads Sample.float_literal
              (Sample.free_text ++ nl) (nl ++ Sample.long_integer ++ nl) ""
              Sample.digits_limit MoreSamples.stopped_quiet 0
              eq_refl
              ltac:(discriminate)
              eq_refl
              ltac:(apply PyStrFacts.find_first; vm_compute; reflexivity)
              ltac:(apply PyStrFacts.find_first; vm_compute; reflexivity)
              ltac:(vm_compute; reflexivity))
    as (M & L & _ & S).
  split; [exact M|]. split; [exact L | exact S].
Defined.
